(** * Context-aware firewall backend: collector agent, ingestion hub, scorer

    A shallow embedding of [backend/network_monitor.py] and
    [backend/server.py].  Python dictionaries are finite maps with string
    keys, the registry of attached websockets is a finite set, and every
    function that performs I/O threads an explicit trace of the I/O it did
    and returns either a value or the exception it raised. *)

From Stdlib Require Import ZArith QArith.
From stdpp Require Import gmap strings list fin_maps pretty.

Local Open Scope string_scope.
Local Open Scope Z_scope.
Local Open Scope list_scope.

(** ** Python values, exceptions and results *)

Module Py.

(** The values that travel in the dictionaries of the two programs.
    Floats are carried as rationals: no arithmetic is done on them here,
    the fitted scaler and forest are opaque artifacts. *)
Inductive pyval : Type :=
  | PNone
  | PInt (n : Z)
  | PFloat (q : Q)
  | PStr (s : string).

(** [dict]: a Python dictionary with string keys. *)
Abbreviation dict := (gmap string pyval).

(** Exceptions, by class.  [KeyboardInterrupt] and [SystemExit] derive
    from [BaseException] only; every other class derives from
    [Exception]. *)
Inductive exn : Type :=
  | KeyboardInterrupt
  | SystemExit
  | KeyError
  | RuntimeError (msg : string)
  | WebSocketDisconnect
  | NoSuchProcess
  | AccessDenied
  | ZombieProcess
  | Timeout
  | ConnectionError
  | NameResolutionError
  | HTTPException (status : Z)
  | TypeError
  | OtherException (cls : string).

Definition is_Exception (e : exn) : bool :=
  match e with
  | KeyboardInterrupt | SystemExit => false
  | _ => true
  end.

Inductive result (A : Type) : Type :=
  | Return (a : A)
  | Raise (e : exn).
Arguments Return {A} a.
Arguments Raise {A} e.

(** Truthiness of an optional integer ([None] and [0] are falsy) and of
    a string (the empty string is falsy). *)
Definition truthy_int (p : option Z) : bool :=
  match p with
  | Some n => negb (n =? 0)
  | None => false
  end.

Definition truthy_str (s : string) : bool :=
  match s with
  | EmptyString => false
  | String _ _ => true
  end.

(** [d.get(key)] and [d.get(key, default)]. *)
Definition get (d : dict) (key : string) : pyval :=
  default PNone (d !! key).

Definition get_default (d : dict) (key : string) (dflt : pyval) : pyval :=
  default dflt (d !! key).

End Py.
Import Py.

(** ** I/O traces

    A computation of type [io A] takes the trace so far and returns its
    outcome with the extended trace. *)

Module IO.

Inductive event : Type :=
  | Post (url : string) (json : dict) (timeout : Q)
  | WsSend (ws : nat) (type : string) (payload : dict)
  | PrintReport (rows : list dict)
  | Print (line : string)
  | PrintUnexpected (e : exn)
  | Sleep (seconds : Z)
  | ScalerTransform (X : list pyval).

Abbreviation trace := (list event).

Definition io (A : Type) : Type := trace → result A * trace.

Definition ret {A} (a : A) : io A := λ tr, (Return a, tr).

Definition raise {A} (e : exn) : io A := λ tr, (Raise e, tr).

Definition bind {A B} (m : io A) (k : A → io B) : io B :=
  λ tr, match m tr with
        | (Return a, tr') => k a tr'
        | (Raise e, tr') => (Raise e, tr')
        end.

Definition emit (ev : event) : io unit := λ tr, (Return tt, tr ++ [ev]).

(** [lift r]: a call into the environment whose outcome is [r]. *)
Definition lift {A} (r : result A) : io A := λ tr, (r, tr).

(** [try_except m handles h]: [try: m  except <handles>: h]. *)
Definition try_except {A} (m : io A) (handles : exn → bool) (h : exn → io A)
  : io A :=
  λ tr, match m tr with
        | (Return a, tr') => (Return a, tr')
        | (Raise e, tr') => if handles e then h e tr' else (Raise e, tr')
        end.

(** [for x in xs: body x]. *)
Fixpoint for_each {A} (xs : list A) (body : A → io unit) : io unit :=
  match xs with
  | [] => ret tt
  | x :: rest => bind (body x) (λ _, for_each rest body)
  end.

End IO.
Import IO.

Notation "'let!' x ':=' m 'in' k" := (IO.bind m (λ x, k))
  (at level 10, x name, m at level 100, k at level 200, only parsing).
Notation "'run!' m 'in' k" := (IO.bind m (λ _, k))
  (at level 10, m at level 100, k at level 200, only parsing).

(** ** The collector agent ([backend/network_monitor.py]) *)

Module Collector.

Definition MONITORING_INTERVAL_SECONDS : Z := 5.
Definition SERVER_URL : string := "http://localhost:8005/events".
Definition REQUEST_TIMEOUT : Q := 3 # 2.

(** *** What [psutil] and the operating system hand to the script *)

(** The [status] constants of [psutil]; each is the string of its name. *)
Inductive conn_status : Type :=
  | CONN_ESTABLISHED | CONN_SYN_SENT | CONN_SYN_RECV | CONN_FIN_WAIT1
  | CONN_FIN_WAIT2 | CONN_TIME_WAIT | CONN_CLOSE | CONN_CLOSE_WAIT
  | CONN_LAST_ACK | CONN_LISTEN | CONN_CLOSING | CONN_NONE.

Global Instance conn_status_eq_dec : EqDecision conn_status.
Proof. solve_decision. Defined.

Definition status_str (s : conn_status) : string :=
  match s with
  | CONN_ESTABLISHED => "ESTABLISHED" | CONN_SYN_SENT => "SYN_SENT"
  | CONN_SYN_RECV => "SYN_RECV" | CONN_FIN_WAIT1 => "FIN_WAIT1"
  | CONN_FIN_WAIT2 => "FIN_WAIT2" | CONN_TIME_WAIT => "TIME_WAIT"
  | CONN_CLOSE => "CLOSE" | CONN_CLOSE_WAIT => "CLOSE_WAIT"
  | CONN_LAST_ACK => "LAST_ACK" | CONN_LISTEN => "LISTEN"
  | CONN_CLOSING => "CLOSING" | CONN_NONE => "NONE"
  end.

(** An address of a connection; an absent address (the empty tuple of
    [psutil], which is falsy) is [None]. *)
Record addr : Type := { ip : string; port : Z }.

(** One entry of [psutil.net_connections(kind='tcp')]. *)
Record sconn : Type := {
  laddr : option addr;
  raddr : option addr;
  status : conn_status;
  pid : option Z
}.

(** [proc.info] of one entry of [psutil.process_iter]. *)
Record proc_info : Type := {
  info_pid : Z;
  info_name : option string;
  info_exe : option string
}.

(** The environment of one polling cycle: what each call out of the
    script answers during that cycle. *)
Record host_env : Type := {
  process_iter : result (list (result proc_info));
  net_connections : result (list sconn);
  gethostname : result string;
  utcnow_isoformat : string;
  os_path_basename : string → string;
  requests_post : string → dict → result unit;
  time_sleep : result unit
}.

(** *** [get_process_path_map] *)

(** [a or b] on optional strings. *)
Definition or_str (a b : option string) : option string :=
  match a with
  | Some s => if truthy_str s then Some s else b
  | None => b
  end.

Definition psutil_gone (e : exn) : bool :=
  match e with
  | NoSuchProcess | AccessDenied | ZombieProcess => true
  | _ => false
  end.

(** The body of the [try] of one iteration. *)
Definition record_process (proc : result proc_info) (pid_to_path : gmap Z string)
  : io (gmap Z string) :=
  let! info := lift proc in
  let pid := info_pid info in
  match or_str (info_exe info) (info_name info) with
  | Some exe_path =>
      if truthy_int (Some pid) && truthy_str exe_path
      then ret (<[pid := exe_path]> pid_to_path)
      else ret pid_to_path
  | None => ret pid_to_path
  end.

Fixpoint process_path_loop (procs : list (result proc_info))
    (pid_to_path : gmap Z string) : io (gmap Z string) :=
  match procs with
  | [] => ret pid_to_path
  | proc :: rest =>
      let! pid_to_path' :=
        try_except (record_process proc pid_to_path) psutil_gone
                   (λ _, ret pid_to_path) in
      process_path_loop rest pid_to_path'
  end.

Definition get_process_path_map (h : host_env) : io (gmap Z string) :=
  let! procs := lift (process_iter h) in
  process_path_loop procs ∅.

(** *** [list_active_tcp_connections] *)

(** [f"{a.ip}:{a.port}"]. *)
Definition fmt_addr (a : addr) : string :=
  ip a +:+ ":" +:+ pretty (port a).

Definition addr_or_NA (a : option addr) : string :=
  match a with
  | Some a => fmt_addr a
  | None => "N/A"
  end.

(** [pid_map.get(pid, dflt)]: [None] is never a key of the map. *)
Definition pid_map_get (pid_map : gmap Z string) (pid : option Z)
    (dflt : string) : string :=
  match pid with
  | Some p => default dflt (pid_map !! p)
  | None => dflt
  end.

(** [pid if pid else "N/A"]: [None] and [0] are falsy. *)
Definition pid_or_NA (pid : option Z) : pyval :=
  match pid with
  | Some p => if truthy_int (Some p) then PInt p else PStr "N/A"
  | None => PStr "N/A"
  end.

Definition UNKNOWN_PROCESS : string := "Unknown/System Process".

(** One iteration of the loop: the dictionary appended for [conn], or
    [None] when the iteration appends nothing. *)
Definition connection_row (pid_map : gmap Z string) (conn : sconn)
  : option dict :=
  if bool_decide (status conn = CONN_ESTABLISHED)
     || bool_decide (status conn = CONN_LISTEN)
  then
    let remote_addr := addr_or_NA (raddr conn) in
    if bool_decide (status conn = CONN_ESTABLISHED)
       && bool_decide (remote_addr = "N/A")
    then None
    else
      let pid := pid conn in
      let local_addr := addr_or_NA (laddr conn) in
      Some (<["pid" := pid_or_NA pid]>
           (<["status" := PStr (status_str (status conn))]>
           (<["local_addr" := PStr local_addr]>
           (<["remote_addr" := PStr remote_addr]>
           (<["process_path" :=
                PStr (pid_map_get pid_map pid UNKNOWN_PROCESS)]> ∅)))))
  else None.

Definition list_active_tcp_connections (h : host_env)
    (pid_map : gmap Z string) : io (list dict) :=
  let! conns := lift (net_connections h) in
  ret (omap (connection_row pid_map) conns).

(** *** [print_connection_report] and [send_event] *)

Definition print_connection_report (report_data : list dict) : io unit :=
  match report_data with
  | [] => emit (Print "No active established or listening TCP connections found.")
  | _ :: _ => emit (PrintReport report_data)
  end.

(** One call of [requests.post], inside [try ... except Exception: pass]. *)
Definition send_event (h : host_env) (payload : dict) : io unit :=
  try_except
    (run! emit (Post SERVER_URL payload REQUEST_TIMEOUT) in
     lift (requests_post h SERVER_URL payload))
    is_Exception
    (λ _, ret tt).

(** *** The polling loop of [__main__] *)

Definition truthy (v : pyval) : bool :=
  match v with
  | PNone => false
  | PInt n => negb (n =? 0)
  | PFloat q => negb (Qeq_bool q 0)
  | PStr s => truthy_str s
  end.

(** [os.path.basename(process_path) if process_path else ""]; the
    library function raises [TypeError] on a value that is not a path. *)
Definition proc_name_of (h : host_env) (process_path : pyval) : result string :=
  if truthy process_path then
    match process_path with
    | PStr s => Return (os_path_basename h s)
    | _ => Raise TypeError
    end
  else Return "".

(** The payload built for one row of the report. *)
Definition event_payload (h : host_env) (hostname ts : string) (conn : dict)
  : result dict :=
  let process_path := get_default conn "process_path" (PStr "") in
  match proc_name_of h process_path with
  | Raise e => Raise e
  | Return proc_name =>
      Return (<["host" := PStr hostname]>
             (<["timestamp" := PStr ts]>
             (<["process" := PStr proc_name]>
             (<["pid" := get conn "pid"]>
             (<["local" := get conn "local_addr"]>
             (<["remote" := get conn "remote_addr"]>
             (<["status" := get conn "status"]>
             (<["exe_path" := process_path]>
             (<["label" := PStr "Normal"]>
             (<["score" := PNone]> ∅))))))))))
  end.

(** The body of the [try] of one iteration, up to [time.sleep]. *)
Definition cycle (h : host_env) : io unit :=
  let! pid_map := get_process_path_map h in
  let! connections := list_active_tcp_connections h pid_map in
  run! print_connection_report connections in
  let! hostname := lift (gethostname h) in
  let ts := utcnow_isoformat h +:+ "Z" in
  run! for_each connections (λ conn,
         let! payload := lift (event_payload h hostname ts conn) in
         send_event h payload) in
  run! emit (Sleep MONITORING_INTERVAL_SECONDS) in
  lift (time_sleep h).

(** How the [while True] loop was left.  [Escaped e]: [e] is neither a
    [KeyboardInterrupt] nor an [Exception], no handler of the loop
    takes it and it leaves the script.  [StillRunning]: the fuel of the
    model ran out, the loop itself has not stopped. *)
Inductive loop_exit : Type :=
  | StoppedByUser
  | StoppedOnError (e : exn)
  | Escaped (e : exn)
  | StillRunning.

(** [hosts n] is the environment of the iteration entered with
    [report_count = n]. *)
Fixpoint main_loop (fuel : nat) (hosts : nat → host_env) (report_count : nat)
    (tr : trace) : loop_exit * nat * trace :=
  match fuel with
  | O => (StillRunning, report_count, tr)
  | S fuel' =>
      match cycle (hosts report_count) tr with
      | (Return _, tr') => main_loop fuel' hosts (S report_count) tr'
      | (Raise KeyboardInterrupt, tr') =>
          (StoppedByUser, report_count,
           tr' ++ [Print (String (Ascii.ascii_of_nat 10) "Monitoring stopped by user.")])
      | (Raise e, tr') =>
          if is_Exception e
          then (StoppedOnError e, report_count, tr' ++ [PrintUnexpected e])
          else (Escaped e, report_count, tr')
      end
  end.

End Collector.

(** ** The ingestion and broadcast hub ([backend/server.py]) *)

Module Hub.

(** A websocket object, hashed by identity. *)
Abbreviation websocket := nat.

(** *** The three operations the server uses on [connected_clients] *)

Definition set_add (ws : websocket) (s : gset websocket) : gset websocket :=
  {[ws]} ∪ s.

Definition set_discard (ws : websocket) (s : gset websocket) : gset websocket :=
  s ∖ {[ws]}.

Definition set_remove (ws : websocket) (s : gset websocket)
  : result (gset websocket) :=
  if decide (ws ∈ s) then Return (s ∖ {[ws]}) else Raise KeyError.

(** *** [websocket_endpoint]

    The coroutine is suspended in [receive_text] for as long as the
    peer stays; it is modelled by its two ends. *)

(** Up to the first [receive_text]: the socket joins the registry. *)
Definition websocket_attach (ws : websocket) (clients : gset websocket)
  : gset websocket :=
  set_add ws clients.

(** From the moment [receive_text] raises [e]: only
    [WebSocketDisconnect] is handled, by [connected_clients.remove]. *)
Definition websocket_closed (ws : websocket) (e : exn)
    (clients : gset websocket) : result unit * gset websocket :=
  match e with
  | WebSocketDisconnect =>
      match set_remove ws clients with
      | Return clients' => (Return tt, clients')
      | Raise e' => (Raise e', clients)
      end
  | _ => (Raise e, clients)
  end.

(** What another task of the event loop does to the registry while the
    broadcast is suspended in a send. *)
Inductive mutation : Type :=
  | Attach (ws : websocket)
  | Detach (ws : websocket).

Definition apply_mutation (clients : gset websocket) (m : mutation)
  : gset websocket :=
  match m with
  | Attach ws => websocket_attach ws clients
  | Detach ws => snd (websocket_closed ws WebSocketDisconnect clients)
  end.

(** The environment of one broadcast: the outcome of each
    [ws.send_json], the registry mutations that the other tasks perform
    during the [n]-th [await] of the broadcast, and the order in which
    the iterator goes on over the hash table once another task has
    touched it (that order depends on the layout of the table, on hash
    values and on resizes, which are not modelled: any order is
    allowed, so the walk may reach a websocket attached meanwhile,
    reach one twice or miss one). *)
Record hub_env : Type := {
  send_json : websocket → dict → result unit;
  other_tasks : nat → list mutation;
  live_walk : list websocket
}.

(** No other task touches the registry during the broadcast. *)
Definition quiet (send : websocket → dict → result unit) : hub_env :=
  {| send_json := send; other_tasks := λ _, []; live_walk := [] |}.

(** *** [broadcast_event]

    The message [{"type": "event", "payload": data}] sent to [ws] is the
    trace event [WsSend ws "event" data].

    The first loop iterates over the set itself.  The iterator remembers
    the size of the set at its creation ([si_used]); each [next] first
    compares it with the current size and raises [RuntimeError] when
    they differ, then yields the next key of the table.  The [for]
    statement is outside the [try]: that exception leaves the function
    before the second loop. *)

(** The walk over a table that another task has touched: [walk] is the
    order given by the environment; the iterator yields only keys that
    are in the table, an entry that is not is passed over. *)
Fixpoint live_loop (h : hub_env) (data : dict) (walk : list websocket)
    (si_used : nat) (n : nat) (clients : gset websocket)
    (remove_list : list websocket) (tr : trace)
  : result (list websocket) * gset websocket * trace :=
  if negb (size clients =? si_used)%nat
  then (Raise (RuntimeError "Set changed size during iteration"), clients, tr)
  else
    match walk with
    | [] => (Return remove_list, clients, tr)
    | ws :: rest =>
        if decide (ws ∈ clients) then
          let tr' := tr ++ [WsSend ws "event" data] in
          let clients' := foldl apply_mutation clients (other_tasks h n) in
          match send_json h ws data with
          | Return _ =>
              live_loop h data rest si_used (S n) clients' remove_list tr'
          | Raise _ =>
              live_loop h data rest si_used (S n) clients'
                        (remove_list ++ [ws]) tr'
          end
        else live_loop h data rest si_used n clients remove_list tr
    end.

(** The walk from the creation of the iterator: as long as no other
    task has touched the set, the keys come in the order of the table,
    [pending] being those not yet visited; from the first [await] during
    which another task mutates the set, the walk goes on as
    [live_loop]. *)
Fixpoint broadcast_loop (h : hub_env) (data : dict) (pending : list websocket)
    (si_used : nat) (n : nat) (clients : gset websocket)
    (remove_list : list websocket) (tr : trace)
  : result (list websocket) * gset websocket * trace :=
  if negb (size clients =? si_used)%nat
  then (Raise (RuntimeError "Set changed size during iteration"), clients, tr)
  else
    match pending with
    | [] => (Return remove_list, clients, tr)
    | ws :: rest =>
        let tr' := tr ++ [WsSend ws "event" data] in
        let remove_list' :=
          match send_json h ws data with
          | Return _ => remove_list
          | Raise _ => remove_list ++ [ws]
          end in
        match other_tasks h n with
        | [] =>
            broadcast_loop h data rest si_used (S n) clients remove_list' tr'
        | m :: ms =>
            live_loop h data (live_walk h) si_used (S n)
                      (foldl apply_mutation clients (m :: ms))
                      remove_list' tr'
        end
    end.

(** The second loop: [connected_clients.discard(ws)] for each entry. *)
Definition discard_all (remove_list : list websocket)
    (clients : gset websocket) : gset websocket :=
  foldl (λ s ws, set_discard ws s) clients remove_list.

Definition broadcast_event (h : hub_env) (data : dict)
    (clients : gset websocket) (tr : trace)
  : result unit * gset websocket * trace :=
  match broadcast_loop h data (elements clients) (size clients) 0
                       clients [] tr with
  | (Return remove_list, clients', tr') =>
      (Return tt, discard_all remove_list clients', tr')
  | (Raise e, clients', tr') => (Raise e, clients', tr')
  end.

(** *** [receive_event] *)

Definition STATUS_OK : dict := {["status" := PStr "ok"]}.

Definition receive_event (h : hub_env) (payload : dict)
    (clients : gset websocket) (tr : trace)
  : result dict * gset websocket * trace :=
  match broadcast_event h payload clients tr with
  | (Return _, clients', tr') => (Return STATUS_OK, clients', tr')
  | (Raise e, clients', tr') => (Raise e, clients', tr')
  end.

End Hub.

(** ** The scoring endpoint ([backend/server.py]) *)

Module Scorer.

(** The two artifacts loaded at start-up, [scaler] and [model]; what
    they compute is fixed by the offline fitting and opaque here.
    [scaler.transform] raises on a row it cannot read as numbers. *)
Record artifacts : Type := {
  scaler_transform : list pyval → result (list Q);
  model_decision_function : list Q → Q;
  model_predict : list Q → Z
}.

(** The single row of [X]. *)
Definition feature_row (payload : dict) : list pyval :=
  [ get_default payload "connection_duration" (PFloat 0);
    get_default payload "packet_size" (PFloat 0);
    get_default payload "port_number" (PInt 0) ].

Definition score (art : artifacts) (payload : dict) : io dict :=
  let X := feature_row payload in
  run! emit (ScalerTransform X) in
  let! Xs := lift (scaler_transform art X) in
  let score := model_decision_function art Xs in
  let label := if model_predict art Xs =? -1 then "Anomaly" else "Normal" in
  ret (<["score" := PFloat score]> (<["label" := PStr label]> ∅)).

End Scorer.

(** ** The offline detection script ([backend/anomaly_detection.py]) *)

Module Detection.

(** One row of the feature table: duration, size, port. *)
Definition sample : Type := Q * Q * Z.

(** What the forest, once fitted on the scaled table, answers for its
    rows: [decision_function] and [predict].  Opaque here. *)
Record fitted : Type := {
  anomaly_scores : list Q;
  predictions : list Z
}.

(** [np.where(predictions == -1, 'Anomaly', 'Normal')]. *)
Definition is_anomaly (predictions : list Z) : list string :=
  (λ p, if p =? -1 then "Anomaly" else "Normal") <$> predictions.

(** A row of [results_df]: the features and the two added columns. *)
Record result_row : Type := {
  features : sample;
  anomaly_score : Q;
  label : string
}.

(** [train_and_detect_anomalies], as far as [results_df] goes (the
    model and the scaler it also returns are opaque): the copy of [df]
    with the two new columns.  Assigning a column whose length is not
    that of the frame raises [ValueError]. *)
Definition train_and_detect_anomalies (fit : list sample → fitted)
    (df : list sample) : result (list result_row) :=
  let model := fit df in
  if bool_decide (length (anomaly_scores model) = length df
                  ∧ length (predictions model) = length df)
  then Return (zip_with (λ xs l, {| features := xs.1; anomaly_score := xs.2;
                                    label := l |})
                 (zip df (anomaly_scores model))
                 (is_anomaly (predictions model)))
  else Raise (OtherException "ValueError").

(** [results_df['is_anomaly'].value_counts().get(name, 0)]. *)
Definition value_count (name : string) (results_df : list result_row) : nat :=
  length (filter (λ r, label r = name) results_df).

(** The three numbers that [display_results] prints first: the total,
    the anomalies and the normal traffic. *)
Definition display_results (results_df : list result_row) : nat * nat * nat :=
  let anomaly_count := value_count "Anomaly" results_df in
  let normal_count := value_count "Normal" results_df in
  (length results_df, anomaly_count, normal_count).

End Detection.

Import Collector Hub Scorer Detection.

(** ** Vocabulary of the statements *)

(** What the loop prints between the enumeration and the sends. *)
Definition report_events (rows : list dict) : trace :=
  match rows with
  | [] => [Print "No active established or listening TCP connections found."]
  | _ :: _ => [PrintReport rows]
  end.

(** The payload of a row of the report ([∅] where [event_payload]
    raises, which it never does on a row of the enumeration). *)
Definition row_payload (h : host_env) (hostname ts : string) (row : dict)
  : dict :=
  match event_payload h hostname ts row with
  | Return payload => payload
  | Raise _ => ∅
  end.

(** One [requests.post] per row, in order. *)
Definition post_events (h : host_env) (hostname ts : string)
    (rows : list dict) : trace :=
  (λ row, Post SERVER_URL (row_payload h hostname ts row) REQUEST_TIMEOUT)
    <$> rows.

(** The owning process of [conn] is not a key of the process map. *)
Definition owner_absent (pid_map : gmap Z string) (conn : sconn) : Prop :=
  match pid conn with
  | Some p => pid_map !! p = None
  | None => True
  end.

(** How the loop is left on exception [e], and what it prints then. *)
Definition exit_of (e : exn) : loop_exit :=
  match e with
  | KeyboardInterrupt => StoppedByUser
  | _ => if is_Exception e then StoppedOnError e else Escaped e
  end.

Definition last_words (e : exn) : trace :=
  match e with
  | KeyboardInterrupt =>
      [Print (String (Ascii.ascii_of_nat 10) "Monitoring stopped by user.")]
  | _ => if is_Exception e then [PrintUnexpected e] else []
  end.

(** [ws.send_json] raises for [ws]. *)
Definition send_raises (send : websocket → dict → result unit) (data : dict)
    (ws : websocket) : bool :=
  match send ws data with
  | Raise _ => true
  | Return _ => false
  end.

(** One delivery attempt of [data] per websocket of [wss], in order. *)
Definition send_events (data : dict) (wss : list websocket) : trace :=
  (λ ws, WsSend ws "event" data) <$> wss.

(** The keys of the payload that the emitter builds. *)
Definition EVENT_FIELDS : list string :=
  ["host"; "timestamp"; "process"; "pid"; "local"; "remote"; "status";
   "exe_path"; "label"; "score"].

Definition event_shaped (payload : dict) : Prop :=
  ∀ key, key ∈ EVENT_FIELDS → is_Some (payload !! key).

(** The three inputs of the scorer with the default that [score] reads
    for each. *)
Definition FEATURE_DEFAULTS : list (string * pyval) :=
  [("connection_duration", PFloat 0); ("packet_size", PFloat 0);
   ("port_number", PInt 0)].

Definition missing_feature (payload : dict) : Prop :=
  ∃ key, key ∈ FEATURE_DEFAULTS.*1 ∧ payload !! key = None.

(** The payload with each absent input set to its default. *)
Definition with_defaults (payload : dict) : dict :=
  foldr (λ kv acc, match payload !! kv.1 with
                   | Some _ => acc
                   | None => <[kv.1 := kv.2]> acc
                   end) payload FEATURE_DEFAULTS.

(** The answer of [score] once the row is scaled to [Xs]. *)
Definition score_response (art : artifacts) (Xs : list Q) : dict :=
  <["score" := PFloat (model_decision_function art Xs)]>
  (<["label" := PStr (if model_predict art Xs =? -1 then "Anomaly"
                      else "Normal")]> ∅).

(** The entry of the process table is read without an exception, or
    with one of the three that the walk handles. *)
Definition readable (proc : result proc_info) : bool :=
  match proc with
  | Return _ => true
  | Raise e => psutil_gone e
  end.

(** The entry raises one of the three handled exceptions. *)
Definition vanished (proc : result proc_info) : bool :=
  match proc with
  | Return _ => false
  | Raise e => psutil_gone e
  end.

(** The path that the walk records for [info], if it records one. *)
Definition recorded_path (info : proc_info) : option string :=
  match or_str (info_exe info) (info_name info) with
  | Some path =>
      if truthy_int (Some (info_pid info)) && truthy_str path
      then Some path else None
  | None => None
  end.

(** The connection is one that the enumeration keeps. *)
Definition retained (conn : sconn) : bool :=
  match status conn with
  | CONN_LISTEN => true
  | CONN_ESTABLISHED => bool_decide (is_Some (raddr conn))
  | _ => false
  end.

(** The row of a kept connection. *)
Definition row_of (pid_map : gmap Z string) (conn : sconn) : dict :=
  <["pid" := pid_or_NA (pid conn)]>
  (<["status" := PStr (status_str (status conn))]>
  (<["local_addr" := PStr (addr_or_NA (laddr conn))]>
  (<["remote_addr" := PStr (addr_or_NA (raddr conn))]>
  (<["process_path" :=
       PStr (pid_map_get pid_map (pid conn) UNKNOWN_PROCESS)]> ∅)))).

Definition ROW_FIELDS : list string :=
  ["pid"; "status"; "local_addr"; "remote_addr"; "process_path"].

(** The JSON bodies posted in a trace, in order. *)
Definition posted (tr : trace) : list dict :=
  omap (λ ev, match ev with Post _ json _ => Some json | _ => None end) tr.

(** The process name of an event whose executable path is [v]. *)
Definition process_name (h : host_env) (v : pyval) : string :=
  match v with
  | PStr s => if truthy_str s then os_path_basename h s else ""
  | _ => ""
  end.

(** Nothing on [h] stops a cycle: the tables can be read, the host has a
    name, the sleep is not interrupted and the posts fail, if they do,
    with an [Exception]. *)
Definition healthy (h : host_env) : Prop :=
  (∃ procs, process_iter h = Return procs
            ∧ Forall (λ proc, readable proc) procs)
  ∧ (∃ conns, net_connections h = Return conns)
  ∧ (∃ hostname, gethostname h = Return hostname)
  ∧ time_sleep h = Return tt
  ∧ ∀ payload e,
      requests_post h SERVER_URL payload = Raise e → is_Exception e = true.

(** The websockets that a trace delivers to, in order. *)
Definition sent_to (tr : trace) : list websocket :=
  omap (λ ev, match ev with WsSend ws _ _ => Some ws | _ => None end) tr.

(** The exception of a set iterator whose set changed size. *)
Definition SET_CHANGED : exn :=
  RuntimeError "Set changed size during iteration".

(** ** Concrete hosts, registries and artifacts *)

Module Example.

(** [posixpath.basename]: what follows the last slash. *)
Fixpoint has_slash (p : string) : bool :=
  match p with
  | EmptyString => false
  | String c rest => bool_decide (c = Ascii.ascii_of_nat 47) || has_slash rest
  end.

Fixpoint posix_basename (p : string) : string :=
  match p with
  | EmptyString => ""
  | String c rest =>
      if has_slash rest then posix_basename rest
      else if bool_decide (c = Ascii.ascii_of_nat 47) then rest else p
  end.

(** A listening socket whose owner the system does not expose. *)
Definition hidden_listener : sconn :=
  {| laddr := Some {| ip := "0.0.0.0"; port := 135 |};
     raddr := None; status := CONN_LISTEN; pid := None |}.

Definition nginx_session : sconn :=
  {| laddr := Some {| ip := "10.0.0.5"; port := 443 |};
     raddr := Some {| ip := "10.0.0.9"; port := 51234 |};
     status := CONN_ESTABLISHED; pid := Some 4242 |}.

(** Established, but the remote end is not resolved. *)
Definition half_open : sconn :=
  {| laddr := Some {| ip := "10.0.0.5"; port := 22 |};
     raddr := None; status := CONN_ESTABLISHED; pid := Some 977 |}.

Definition closing : sconn :=
  {| laddr := Some {| ip := "10.0.0.5"; port := 8080 |};
     raddr := Some {| ip := "10.0.0.7"; port := 40000 |};
     status := CONN_TIME_WAIT; pid := Some 4242 |}.

Definition tcp_table : list sconn :=
  [hidden_listener; nginx_session; half_open; closing].

Definition process_table : list (result proc_info) :=
  [ Return {| info_pid := 0; info_name := Some "idle"; info_exe := None |};
    Return {| info_pid := 4242; info_name := Some "nginx";
              info_exe := Some "/usr/sbin/nginx" |};
    Raise AccessDenied ].

Definition pid_map : gmap Z string := {[ 4242 := "/usr/sbin/nginx" ]}.

(** A host whose hub is unreachable: every post is refused. *)
Definition cut_off : host_env :=
  {| process_iter := Return process_table;
     net_connections := Return tcp_table;
     gethostname := Return "edge-1";
     utcnow_isoformat := "2025-01-01T00:00:00";
     os_path_basename := posix_basename;
     requests_post := λ _ _, Raise ConnectionError;
     time_sleep := Return tt |}.

(** A host on which the connection table cannot be read. *)
Definition blind : host_env :=
  {| process_iter := Return process_table;
     net_connections := Raise (OtherException "OSError");
     gethostname := Return "edge-1";
     utcnow_isoformat := "2025-01-01T00:00:00";
     os_path_basename := posix_basename;
     requests_post := λ _ _, Return tt;
     time_sleep := Return tt |}.

(** A host whose operator presses Ctrl+C while a post is under way. *)
Definition interrupted : host_env :=
  {| process_iter := Return process_table;
     net_connections := Return tcp_table;
     gethostname := Return "edge-1";
     utcnow_isoformat := "2025-01-01T00:00:00";
     os_path_basename := posix_basename;
     requests_post := λ _ _, Raise KeyboardInterrupt;
     time_sleep := Return tt |}.

Definition rows : list dict := omap (connection_row pid_map) tcp_table.

Definition hidden_listener_row : dict :=
  default ∅ (connection_row pid_map hidden_listener).

Definition hidden_listener_event : dict :=
  row_payload cut_off "edge-1" "2025-01-01T00:00:00Z" hidden_listener_row.

(** Every send succeeds. *)
Definition all_delivered : websocket → dict → result unit :=
  λ _ _, Return tt.

(** The channel of websocket [2] is closed. *)
Definition second_closed : websocket → dict → result unit :=
  λ ws _, if decide (ws = 2%nat) then Raise (RuntimeError "closed")
          else Return tt.

Definition two_clients : gset websocket := {[ 1%nat; 2%nat ]}.

(** A third dashboard attaches while the first send is awaited. *)
Definition attach_mid_broadcast : hub_env :=
  {| send_json := all_delivered;
     other_tasks := λ n, match n with
                         | O => [Attach 3%nat]
                         | S _ => []
                         end;
     live_walk := [] |}.

(** A dashboard leaves while the first send is awaited. *)
Definition detach_mid_broadcast : hub_env :=
  {| send_json := all_delivered;
     other_tasks := λ n, match n with
                         | O => [Detach 1%nat]
                         | S _ => []
                         end;
     live_walk := [] |}.

Definition as_number (v : pyval) : option Q :=
  match v with
  | PInt n => Some (inject_Z n)
  | PFloat q => Some q
  | _ => None
  end.

(** Stand-ins for the fitted artifacts: a scaler of mean 0 and scale 1,
    and a model that flags rows whose coordinates sum above 1000. *)
Definition toy : artifacts :=
  {| scaler_transform := λ X,
       match mapM as_number X with
       | Some Xs => Return Xs
       | None => Raise (OtherException "ValueError")
       end;
     model_decision_function := λ Xs, (1000 - foldr Qplus 0 Xs)%Q;
     model_predict := λ Xs,
       if Qle_bool (foldr Qplus 0%Q Xs) 1000%Q then 1 else -1 |}.

(** A process table with an entry that fails in an unforeseen way. *)
Definition unreadable : host_env :=
  {| process_iter :=
       Return [ Return {| info_pid := 4242; info_name := Some "nginx";
                          info_exe := Some "/usr/sbin/nginx" |};
                Raise ZombieProcess;
                Raise (OtherException "PermissionError");
                Return {| info_pid := 977; info_name := Some "sshd";
                          info_exe := None |} ];
     net_connections := Return tcp_table;
     gethostname := Return "edge-1";
     utcnow_isoformat := "2025-01-01T00:00:00";
     os_path_basename := posix_basename;
     requests_post := λ _ _, Return tt;
     time_sleep := Return tt |}.

(** The operator presses Ctrl+C during the sleep of the cycle. *)
Definition interrupted_asleep : host_env :=
  {| process_iter := Return process_table;
     net_connections := Return tcp_table;
     gethostname := Return "edge-1";
     utcnow_isoformat := "2025-01-01T00:00:00";
     os_path_basename := posix_basename;
     requests_post := λ _ _, Return tt;
     time_sleep := Raise KeyboardInterrupt |}.

(** A listening socket owned by pid 0. *)
Definition idle_listener : sconn :=
  {| laddr := Some {| ip := "0.0.0.0"; port := 445 |};
     raddr := None; status := CONN_LISTEN; pid := Some 0 |}.

Definition nginx_info : proc_info :=
  {| info_pid := 4242; info_name := Some "nginx";
     info_exe := Some "/usr/sbin/nginx" |}.

(** While the send to websocket [2] fails, websocket [1] leaves and a
    new one attaches: the size of the registry is the same after, and
    the walk goes on to the newcomer. *)
Definition swap_mid_broadcast : hub_env :=
  {| send_json := second_closed;
     other_tasks := λ n, match n with
                         | O => [Detach 1%nat; Attach 3%nat]
                         | S _ => []
                         end;
     live_walk := [3%nat] |}.

(** The peer of websocket [2] goes away: the send to it fails, and its
    endpoint removes it from the registry meanwhile. *)
Definition failed_peer_leaves : hub_env :=
  {| send_json := second_closed;
     other_tasks := λ n, match n with
                         | O => [Detach 2%nat]
                         | S _ => []
                         end;
     live_walk := [1%nat] |}.

(** The send to websocket [2] fails while a new dashboard attaches. *)
Definition attach_during_failed_send : hub_env :=
  {| send_json := second_closed;
     other_tasks := λ n, match n with
                         | O => [Attach 3%nat]
                         | S _ => []
                         end;
     live_walk := [1%nat; 3%nat] |}.

(** A forest stand-in that flags the rows whose duration and size sum
    above 1000. *)
Definition toy_fit (df : list Detection.sample) : Detection.fitted :=
  {| Detection.anomaly_scores := (λ x, 1000 - x.1.1 - x.1.2)%Q <$> df;
     Detection.predictions :=
       (λ x, if Qle_bool (x.1.1 + x.1.2)%Q 1000%Q then 1 else -1) <$> df |}.

Definition corpus : list Detection.sample :=
  [ (15%Q, 600%Q, 443); (300%Q, 9000%Q, 51000); (12%Q, 700%Q, 80) ].

End Example.

Import Example.

(** ** The connection enumeration *)

Section enumeration.
Context (pid_map : gmap Z string).

(** A formatted address holds a colon after at most the whole host
    part, so it is never the placeholder. *)
Lemma fmt_addr_not_NA (a : addr) : fmt_addr a ≠ "N/A".
Proof.
  unfold fmt_addr.
  destruct (ip a) as [|c0 [|c1 [|c2 [|c3 s]]]]; cbn; intros H; simplify_eq.
Qed.

Lemma addr_or_NA_is_NA (a : option addr) : addr_or_NA a = "N/A" ↔ a = None.
Proof.
  destruct a as [a|]; cbn; split; try done.
  intros H. by apply fmt_addr_not_NA in H.
Qed.

(** A connection yields a row exactly when it listens or is
    established with a remote end, and the row is then this one. *)
Lemma connection_row_Some (conn : sconn) (row : dict) :
  connection_row pid_map conn = Some row →
  (status conn = CONN_ESTABLISHED ∧ is_Some (raddr conn)
   ∨ status conn = CONN_LISTEN) ∧
  row = <["pid" := pid_or_NA (pid conn)]>
       (<["status" := PStr (status_str (status conn))]>
       (<["local_addr" := PStr (addr_or_NA (laddr conn))]>
       (<["remote_addr" := PStr (addr_or_NA (raddr conn))]>
       (<["process_path" :=
            PStr (pid_map_get pid_map (pid conn) UNKNOWN_PROCESS)]> ∅)))).
Proof.
  unfold connection_row. intros H.
  destruct (bool_decide (status conn = CONN_ESTABLISHED)) eqn:He;
    destruct (bool_decide (status conn = CONN_LISTEN)) eqn:Hl; cbn in H;
    try discriminate;
    try (apply bool_decide_eq_true in He);
    try (apply bool_decide_eq_true in Hl).
  - congruence.
  - destruct (bool_decide (addr_or_NA (raddr conn) = "N/A")) eqn:Hr; [done|].
    apply bool_decide_eq_false in Hr. rewrite addr_or_NA_is_NA in Hr.
    split; [left; split; [done|] | congruence].
    destruct (raddr conn); [eauto | done].
  - split; [by right | congruence].
Qed.

Lemma row_lookups (conn : sconn) (row : dict) :
  connection_row pid_map conn = Some row →
  row !! "pid" = Some (pid_or_NA (pid conn)) ∧
  row !! "status" = Some (PStr (status_str (status conn))) ∧
  row !! "local_addr" = Some (PStr (addr_or_NA (laddr conn))) ∧
  row !! "remote_addr" = Some (PStr (addr_or_NA (raddr conn))) ∧
  row !! "process_path" =
    Some (PStr (pid_map_get pid_map (pid conn) UNKNOWN_PROCESS)).
Proof.
  intros [_ ->]%connection_row_Some. by simplify_map_eq.
Qed.

(** An established connection without a remote end yields no row. *)
Lemma half_open_dropped (conn : sconn) :
  status conn = CONN_ESTABLISHED → raddr conn = None →
  connection_row pid_map conn = None.
Proof.
  intros Hs Hr. destruct (connection_row pid_map conn) as [row|] eqn:E; [|done].
  apply connection_row_Some in E as [[[_ [a Ha]]|Hl] _]; congruence.
Qed.

(** Claim C2.  Every row of the enumeration comes from a connection of
    the table that is established or listening, and carries that state;
    a row of an established connection has a resolved remote end, never
    the placeholder; and when the owning process is not in the process
    map the row carries the path "Unknown/System Process".  The path of
    a row is always a string. *)
Theorem retained_connections (h : host_env) (tr tr' : trace)
    (rows : list dict) (row : dict) :
  list_active_tcp_connections h pid_map tr = (Return rows, tr') →
  row ∈ rows →
  ∃ conns conn,
    net_connections h = Return conns ∧ conn ∈ conns ∧
    connection_row pid_map conn = Some row ∧
    row !! "status" = Some (PStr (status_str (status conn))) ∧
    (status conn = CONN_ESTABLISHED ∨ status conn = CONN_LISTEN) ∧
    (status conn = CONN_ESTABLISHED →
       is_Some (raddr conn) ∧ row !! "remote_addr" ≠ Some (PStr "N/A")) ∧
    (owner_absent pid_map conn →
       row !! "process_path" = Some (PStr "Unknown/System Process")) ∧
    (∃ path, row !! "process_path" = Some (PStr path)).
Proof.
  unfold list_active_tcp_connections, bind, lift, ret.
  destruct (net_connections h) as [conns|e]; [|done].
  intros [= <- <-] Hrow.
  apply list_elem_of_omap in Hrow as (conn & Hconn & Hr).
  exists conns, conn.
  destruct (row_lookups _ _ Hr) as (_ & Hst & _ & Hra & Hpp).
  destruct (connection_row_Some _ _ Hr) as [Hs _].
  repeat split; try done.
  - destruct Hs as [[? _]|?]; auto.
  - destruct Hs as [[_ ?]|Hl]; [done | congruence].
  - rewrite Hra. intros [= HNA]. apply addr_or_NA_is_NA in HNA.
    destruct Hs as [[_ [a Ha]]|Hl]; congruence.
  - intros Habs. rewrite Hpp. unfold owner_absent, pid_map_get in *.
    destruct (pid conn); [by rewrite Habs | done].
  - eauto.
Qed.

(** The payload built from a row of the enumeration: building it never
    raises, and its [pid] is the one of the row. *)
Lemma event_payload_of_row (h : host_env) (conn : sconn) (row : dict)
    (hostname ts : string) :
  connection_row pid_map conn = Some row →
  ∃ payload, event_payload h hostname ts row = Return payload ∧
    payload !! "pid" = Some (pid_or_NA (pid conn)).
Proof.
  intros Hr. destruct (row_lookups _ _ Hr) as (Hpid & _ & _ & _ & Hpp).
  unfold event_payload, get_default, get. rewrite Hpp, Hpid. cbn.
  unfold proc_name_of, truthy.
  destruct (truthy_str _); eexists; (split; [done|]); by simplify_map_eq.
Qed.

(** Claim C8, as the code has it.  The event built for a retained
    connection always has a [pid] field: the process id when the system
    exposed one other than 0, and the string "N/A" in its place
    otherwise. *)
Theorem event_pid_field (h : host_env) (conn : sconn) (row : dict)
    (hostname ts : string) :
  connection_row pid_map conn = Some row →
  ∃ payload, event_payload h hostname ts row = Return payload ∧
    payload !! "pid" =
      Some (match pid conn with
            | Some p => if p =? 0 then PStr "N/A" else PInt p
            | None => PStr "N/A"
            end).
Proof.
  intros Hr. destruct (event_payload_of_row h _ _ hostname ts Hr)
    as (payload & Hp & Hpid).
  exists payload. split; [done|]. rewrite Hpid. unfold pid_or_NA, truthy_int.
  destruct (pid conn) as [p|]; [|done]. by destruct (p =? 0).
Qed.
End enumeration.

Lemma retained_connections_witness :
  ∃ conns conn,
    net_connections cut_off = Return conns ∧ conn ∈ conns ∧
    connection_row Example.pid_map conn = Some hidden_listener_row ∧
    hidden_listener_row !! "status" = Some (PStr (status_str (status conn))) ∧
    (status conn = CONN_ESTABLISHED ∨ status conn = CONN_LISTEN) ∧
    (status conn = CONN_ESTABLISHED →
       is_Some (raddr conn)
       ∧ hidden_listener_row !! "remote_addr" ≠ Some (PStr "N/A")) ∧
    (owner_absent Example.pid_map conn →
       hidden_listener_row !! "process_path"
       = Some (PStr "Unknown/System Process")) ∧
    (∃ path, hidden_listener_row !! "process_path" = Some (PStr path)).
Proof.
  apply (retained_connections Example.pid_map cut_off [] [] Example.rows).
  - reflexivity.
  - vm_compute. apply list_elem_of_here.
Defined.

(** Claim C8, as stated, fails: the event of a listening socket whose
    owner is not exposed has a [pid] field, holding the string "N/A". *)
Lemma event_pid_placeholder :
  pid hidden_listener = None ∧
  connection_row Example.pid_map hidden_listener = Some hidden_listener_row ∧
  event_payload cut_off "edge-1" "2025-01-01T00:00:00Z" hidden_listener_row
    = Return hidden_listener_event ∧
  hidden_listener_event !! "pid" = Some (PStr "N/A").
Proof. by vm_compute. Qed.

Lemma event_pid_field_witness :
  ∃ payload,
    event_payload cut_off "edge-1" "2025-01-01T00:00:00Z"
                  (default ∅ (connection_row Example.pid_map nginx_session))
      = Return payload ∧
    payload !! "pid" = Some (PInt 4242).
Proof.
  apply (event_pid_field Example.pid_map cut_off nginx_session).
  reflexivity.
Defined.

(** ** The emitter and the polling loop *)

Section polling.
Context (h : host_env).

(** Whatever [requests.post] answers, short of an exception outside
    [Exception], [send_event] returns after that one call. *)
Lemma send_event_caught (payload : dict) (tr : trace) :
  (∀ e, requests_post h SERVER_URL payload = Raise e → is_Exception e = true) →
  send_event h payload tr
  = (Return tt, tr ++ [Post SERVER_URL payload REQUEST_TIMEOUT]).
Proof.
  intros Hexc. unfold send_event, try_except, bind, emit, lift, ret.
  destruct (requests_post h SERVER_URL payload) as [[]|e] eqn:Hpost; [done|].
  by rewrite (Hexc e).
Qed.

(** An exception outside [Exception] passes through [send_event]. *)
Lemma send_event_escapes (payload : dict) (tr : trace) (e : exn) :
  requests_post h SERVER_URL payload = Raise e → is_Exception e = false →
  send_event h payload tr
  = (Raise e, tr ++ [Post SERVER_URL payload REQUEST_TIMEOUT]).
Proof.
  intros Hpost He. unfold send_event, try_except, bind, emit, lift, ret.
  by rewrite Hpost, He.
Qed.

(** Building the process map does no I/O of its own. *)
Lemma process_path_loop_trace (procs : list (result proc_info))
    (m : gmap Z string) (tr : trace) :
  process_path_loop procs m tr = ((process_path_loop procs m []).1, tr).
Proof.
  revert m. induction procs as [|proc rest IH]; intros m; [done|].
  cbn. unfold bind, try_except, record_process, bind, lift, ret.
  destruct proc as [info|e].
  - destruct (or_str _ _) as [p|]; [destruct (_ && _)|]; cbn; apply IH.
  - destruct (psutil_gone e); [|done]. apply IH.
Qed.

Lemma get_process_path_map_trace (tr : trace) :
  get_process_path_map h tr = ((get_process_path_map h []).1, tr).
Proof.
  unfold get_process_path_map, bind, lift.
  destruct (process_iter h); [|done]. apply process_path_loop_trace.
Qed.

(** A process that vanished or denies access is skipped. *)
Lemma process_path_loop_skips (e : exn) (rest : list (result proc_info))
    (m : gmap Z string) (tr : trace) :
  psutil_gone e = true →
  process_path_loop (Raise e :: rest) m tr = process_path_loop rest m tr.
Proof.
  intros He. cbn. unfold bind, try_except, record_process, bind, lift, ret.
  by rewrite He.
Qed.

(** The sends of one cycle: one post per row, whatever each answers. *)
Lemma for_each_send (hostname ts : string) (pid_map : gmap Z string)
    (conns : list sconn) (tr : trace) :
  (∀ payload e,
     requests_post h SERVER_URL payload = Raise e → is_Exception e = true) →
  for_each (omap (connection_row pid_map) conns)
    (λ conn, let! payload := lift (event_payload h hostname ts conn) in
             send_event h payload) tr
  = (Return tt,
     tr ++ post_events h hostname ts (omap (connection_row pid_map) conns)).
Proof.
  intros Hexc. revert tr.
  induction conns as [|conn conns IH]; intros tr; cbn.
  { by rewrite app_nil_r. }
  destruct (connection_row pid_map conn) as [row|] eqn:Hr; [|apply IH].
  cbn. unfold bind at 1. unfold bind at 1. unfold lift at 1.
  destruct (event_payload_of_row pid_map h _ _ hostname ts Hr)
    as (payload & Hp & _).
  unfold row_payload. rewrite Hp.
  rewrite send_event_caught by eauto. rewrite IH.
  by rewrite <- app_assoc.
Qed.

(** A cycle whose enumeration succeeds runs to the end of its sleep. *)
Lemma cycle_completes (tr : trace) (pid_map : gmap Z string)
    (conns : list sconn) (hostname : string) :
  get_process_path_map h tr = (Return pid_map, tr) →
  net_connections h = Return conns →
  gethostname h = Return hostname →
  time_sleep h = Return tt →
  (∀ payload e,
     requests_post h SERVER_URL payload = Raise e → is_Exception e = true) →
  let rows := omap (connection_row pid_map) conns in
  cycle h tr
  = (Return tt,
     tr ++ report_events rows
        ++ post_events h hostname (utcnow_isoformat h +:+ "Z") rows
        ++ [Sleep MONITORING_INTERVAL_SECONDS]).
Proof.
  intros Hmap Hnet Hhost Hsleep Hexc rows. unfold cycle.
  unfold bind at 1. rewrite Hmap.
  unfold bind at 1. unfold list_active_tcp_connections, bind at 1, lift at 1.
  rewrite Hnet. unfold ret at 1. fold rows.
  unfold bind at 1.
  replace (print_connection_report rows tr)
    with (Return tt, tr ++ report_events rows)
    by (by destruct rows).
  unfold bind at 1, lift at 1. rewrite Hhost.
  unfold bind at 1. unfold rows at 1. rewrite for_each_send by done.
  unfold bind, emit, lift. rewrite Hsleep. fold rows.
  by rewrite <- !app_assoc.
Qed.

(** An exception raised by the walk of the process table, or by the
    read of the connection table, leaves the cycle. *)
Lemma cycle_raises_process_iter (tr : trace) (e : exn) :
  process_iter h = Raise e → cycle h tr = (Raise e, tr).
Proof.
  intros He. unfold cycle, get_process_path_map, bind, lift. by rewrite He.
Qed.

Lemma cycle_raises_net_connections (tr : trace) (pid_map : gmap Z string)
    (e : exn) :
  get_process_path_map h tr = (Return pid_map, tr) →
  net_connections h = Raise e →
  cycle h tr = (Raise e, tr).
Proof.
  intros Hmap He. unfold cycle. unfold bind at 1. rewrite Hmap.
  unfold bind at 1. unfold list_active_tcp_connections, bind at 1, lift at 1.
  by rewrite He.
Qed.
End polling.

(** An entry of the process table that raises anything but the three
    handled classes ends the walk with that exception. *)
Lemma process_path_loop_raises (e : exn) (rest : list (result proc_info))
    (m : gmap Z string) (tr : trace) :
  psutil_gone e = false →
  process_path_loop (Raise e :: rest) m tr = (Raise e, tr).
Proof.
  intros He. cbn. unfold bind, try_except, record_process, bind, lift, ret.
  by rewrite He.
Qed.

(** Claim C3.  When [requests.post] raises an exception [e] of class
    [Exception] (a timeout, a refused connection, a failed name
    resolution, or any other), [send_event] returns normally after that
    single call: the trace grows by exactly one post and nothing is kept
    for later.  And a cycle whose sends fail in this way, its enumeration
    having succeeded, ends normally: the loop goes on to the next
    iteration, having made one post per retained connection. *)
Theorem failed_send_is_dropped (hosts : nat → host_env) (n : nat)
    (payload : dict) (e : exn) (tr : trace) :
  requests_post (hosts n) SERVER_URL payload = Raise e →
  is_Exception e = true →
  send_event (hosts n) payload tr
  = (Return tt, tr ++ [Post SERVER_URL payload REQUEST_TIMEOUT])
  ∧ ∀ fuel pid_map conns hostname,
      get_process_path_map (hosts n) tr = (Return pid_map, tr) →
      net_connections (hosts n) = Return conns →
      gethostname (hosts n) = Return hostname →
      time_sleep (hosts n) = Return tt →
      (∀ payload' e',
         requests_post (hosts n) SERVER_URL payload' = Raise e' →
         is_Exception e' = true) →
      let rows := omap (connection_row pid_map) conns in
      main_loop (S fuel) hosts n tr
      = main_loop fuel hosts (S n)
          (tr ++ report_events rows
              ++ post_events (hosts n) hostname
                   (utcnow_isoformat (hosts n) +:+ "Z") rows
              ++ [Sleep MONITORING_INTERVAL_SECONDS]).
Proof.
  intros Hpost He. split.
  - unfold send_event, try_except, bind, emit, lift, ret.
    by rewrite Hpost, He.
  - intros fuel pid_map conns hostname Hmap Hnet Hhost Hsleep Hexc rows.
    cbn. by rewrite (cycle_completes _ _ _ _ _ Hmap Hnet Hhost Hsleep Hexc).
Qed.

Lemma failed_send_is_dropped_witness :
  send_event cut_off hidden_listener_event []
  = (Return tt, [Post SERVER_URL hidden_listener_event REQUEST_TIMEOUT])
  ∧ main_loop 1 (λ _, cut_off) 0 []
    = (StillRunning, 1%nat,
       report_events Example.rows
         ++ post_events cut_off "edge-1" "2025-01-01T00:00:00Z" Example.rows
         ++ [Sleep 5]).
Proof.
  destruct (failed_send_is_dropped (λ _, cut_off) 0 hidden_listener_event
              ConnectionError [] eq_refl eq_refl) as [Hsend Hloop].
  split; [exact Hsend|].
  apply (Hloop 0%nat Example.pid_map tcp_table "edge-1");
    try reflexivity.
  by intros payload' e' [= <-].
Defined.

(** An interrupt during the first post is not caught by [send_event]:
    the second row is never posted and the loop is left at once. *)
Lemma interrupt_during_send_stops_loop :
  main_loop 6 (λ _, interrupted) 0 []
  = (StoppedByUser, 0%nat,
     [PrintReport Example.rows;
      Post SERVER_URL hidden_listener_event REQUEST_TIMEOUT;
      Print (String (Ascii.ascii_of_nat 10) "Monitoring stopped by user.")]).
Proof. by vm_compute. Qed.

(** Claim C7.  When the body of an iteration raises, whatever the
    exception, the loop is left in that very iteration: the count of
    completed reports stays where it was, no later cycle runs however
    long the loop could have gone on, and all that follows in the trace
    is the message printed on the way out. *)
Theorem loop_stops_on_exception (fuel : nat) (hosts : nat → host_env)
    (n : nat) (tr tr' : trace) (e : exn) :
  cycle (hosts n) tr = (Raise e, tr') →
  main_loop (S fuel) hosts n tr = (exit_of e, n, tr' ++ last_words e)
  ∧ exit_of e ≠ StillRunning.
Proof.
  intros Hc. split.
  - cbn. rewrite Hc. destruct e; cbn; by rewrite ?app_nil_r.
  - destruct e; cbn; done.
Qed.

Lemma loop_stops_on_exception_witness :
  main_loop 6 (λ _, blind) 0 []
  = (StoppedOnError (OtherException "OSError"), 0%nat,
     [PrintUnexpected (OtherException "OSError")])
  ∧ exit_of (OtherException "OSError") ≠ StillRunning.
Proof.
  apply (loop_stops_on_exception 5 (λ _, blind) 0 [] []
           (OtherException "OSError")).
  reflexivity.
Defined.

(** ** The broadcast with no other task touching the registry *)

Section quiet_broadcast.
Context (send : websocket → dict → result unit) (data : dict).

(** The first loop visits every pending websocket once and collects
    those whose send raised. *)
Lemma broadcast_loop_quiet (pending : list websocket)
    (clients : gset websocket) (n : nat) (remove_list : list websocket)
    (tr : trace) :
  (∀ ws, ws ∈ pending → ws ∈ clients) →
  broadcast_loop (quiet send) data pending (size clients) n clients
                 remove_list tr
  = (Return (remove_list ++ filter (λ ws, send_raises send data ws) pending),
     clients, tr ++ send_events data pending).
Proof.
  revert n remove_list tr.
  induction pending as [|ws rest IH]; intros n remove_list tr Hin; cbn.
  - rewrite Nat.eqb_refl. cbn. by rewrite !app_nil_r.
  - rewrite Nat.eqb_refl. cbn.
    assert (∀ ws', ws' ∈ rest → ws' ∈ clients) as Hrest.
    { intros ws' ?. apply Hin. by right. }
    assert (send_raises send data ws
            = match send ws data with Raise _ => true | _ => false end)
      as Hraises by done.
    destruct (send ws data) as [[]|e]; rewrite IH by done;
      case_decide as Hd; rewrite Hraises in Hd; try done;
      unfold send_events; by rewrite <- !app_assoc.
Qed.

Lemma elem_of_discard_all (x : websocket) (remove_list : list websocket)
    (clients : gset websocket) :
  x ∈ discard_all remove_list clients ↔ x ∈ clients ∧ x ∉ remove_list.
Proof.
  unfold discard_all. revert clients.
  induction remove_list as [|ws rest IH]; intros clients; cbn.
  - split; [intros ?; split; [done | apply not_elem_of_nil] | by intros []].
  - rewrite IH. unfold set_discard.
    rewrite elem_of_difference, elem_of_singleton, not_elem_of_cons. tauto.
Qed.

Lemma broadcast_event_quiet (clients : gset websocket) (tr : trace) :
  broadcast_event (quiet send) data clients tr
  = (Return tt,
     filter (λ ws, ¬ send_raises send data ws) clients,
     tr ++ send_events data (elements clients)).
Proof.
  unfold broadcast_event.
  rewrite broadcast_loop_quiet by (intros ws; apply elem_of_elements).
  f_equal. f_equal. apply set_eq. intros x.
  rewrite elem_of_discard_all, elem_of_filter. cbn.
  rewrite list_elem_of_filter, elem_of_elements. tauto.
Qed.
End quiet_broadcast.

(** When no other task changes the registry during the broadcast:
    whatever the registry and however many sends raise, all of them
    included, [receive_event] answers [{"status": "ok"}]; the registry
    is left with exactly the websockets whose send did not raise; and
    one delivery of the payload was attempted for every websocket of
    the registry, a failure stopping none of the later ones. *)
Theorem ingest_survives_send_failures
    (send : websocket → dict → result unit) (payload : dict)
    (clients : gset websocket) (tr : trace) :
  receive_event (quiet send) payload clients tr
  = (Return STATUS_OK,
     filter (λ ws, ¬ send_raises send payload ws) clients,
     tr ++ send_events payload (elements clients)).
Proof.
  unfold receive_event. by rewrite broadcast_event_quiet.
Qed.

(** Claim C5, as stated, fails: the empty payload has none of the
    fields of an event, yet it is sent on to the attached websocket and
    acknowledged. *)
Lemma empty_payload_is_broadcast :
  ¬ event_shaped ∅ ∧
  receive_event (quiet all_delivered) ∅ {[ 1%nat ]} []
  = (Return STATUS_OK, {[ 1%nat ]}, [WsSend 1 "event" ∅]).
Proof.
  split; [|by vm_compute].
  intros H. destruct (H "host") as [v Hv]; [left|]. by rewrite lookup_empty in Hv.
Qed.

(** Claim C5, as the code has it.  The hub checks no field: a payload
    that lacks fields of an event is sent unchanged to every websocket
    of the registry and acknowledged with [{"status": "ok"}] like any
    other; no payload makes [receive_event] raise. *)
Theorem ingest_checks_no_field
    (send : websocket → dict → result unit) (payload : dict)
    (clients : gset websocket) (tr : trace) :
  ¬ event_shaped payload →
  (receive_event (quiet send) payload clients tr).1.1 = Return STATUS_OK
  ∧ (receive_event (quiet send) payload clients tr).2
    = tr ++ send_events payload (elements clients).
Proof.
  intros _. unfold receive_event. by rewrite broadcast_event_quiet.
Qed.

Lemma ingest_checks_no_field_witness :
  (receive_event (quiet second_closed) ∅ two_clients []).1.1 = Return STATUS_OK
  ∧ (receive_event (quiet second_closed) ∅ two_clients []).2
    = [] ++ send_events ∅ (elements two_clients).
Proof.
  apply (ingest_checks_no_field second_closed ∅ two_clients []).
  intros H. destruct (H "host") as [v Hv]; [left|]. by rewrite lookup_empty in Hv.
Defined.

(** ** The two ways out of the registry *)

Lemma websocket_closed_present (ws : websocket) (clients : gset websocket) :
  ws ∈ clients →
  websocket_closed ws WebSocketDisconnect clients
  = (Return tt, clients ∖ {[ws]}).
Proof.
  intros Hin. unfold websocket_closed, set_remove. by rewrite decide_True.
Qed.

Lemma websocket_closed_absent (ws : websocket) (clients : gset websocket) :
  ws ∉ clients →
  websocket_closed ws WebSocketDisconnect clients = (Raise KeyError, clients).
Proof.
  intros Hin. unfold websocket_closed, set_remove. by rewrite decide_False.
Qed.

(** Claim C10.  Once a broadcast has dropped a websocket whose send
    raised, the disconnect of that websocket reaches
    [connected_clients.remove] on a set that no longer holds it, and
    [KeyError] is raised; for a websocket still in the registry the
    disconnect removes it and raises nothing. *)
Theorem disconnect_after_failed_send
    (send : websocket → dict → result unit) (data : dict)
    (clients : gset websocket) (tr : trace) (ws : websocket) (e : exn) :
  ws ∈ clients →
  send ws data = Raise e →
  let clients' := (broadcast_event (quiet send) data clients tr).1.2 in
  websocket_closed ws WebSocketDisconnect clients' = (Raise KeyError, clients')
  ∧ ∀ ws', ws' ∈ clients' →
      websocket_closed ws' WebSocketDisconnect clients'
      = (Return tt, clients' ∖ {[ws']}).
Proof.
  intros Hin Hsend clients'. split.
  - apply websocket_closed_absent. unfold clients'.
    rewrite broadcast_event_quiet. cbn. rewrite elem_of_filter.
    unfold send_raises. rewrite Hsend. cbn. tauto.
  - intros ws'. apply websocket_closed_present.
Qed.

Lemma disconnect_after_failed_send_witness :
  let clients' := (broadcast_event (quiet second_closed) ∅ two_clients []).1.2 in
  websocket_closed 2 WebSocketDisconnect clients' = (Raise KeyError, clients')
  ∧ ∀ ws', ws' ∈ clients' →
      websocket_closed ws' WebSocketDisconnect clients'
      = (Return tt, clients' ∖ {[ws']}).
Proof.
  apply (disconnect_after_failed_send second_closed ∅ two_clients [] 2%nat
           (RuntimeError "closed")).
  - vm_compute. set_solver.
  - reflexivity.
Defined.

(** ** The broadcast while other tasks run *)

(** Claim C1.  The code run on two interleavings in which the send to
    websocket [2] raises.  When its endpoint removes it from the
    registry during that send, or when another dashboard attaches
    during that send, the next step of the iteration raises
    [RuntimeError]: [receive_event] does not answer, websocket [1] is
    never tried, and in the second case the websocket whose send raised
    is still in the registry. *)
Theorem ingest_fails_when_registry_changes :
  receive_event failed_peer_leaves ∅ two_clients []
  = (Raise (RuntimeError "Set changed size during iteration"),
     {[ 1%nat ]}, [WsSend 2 "event" ∅])
  ∧ receive_event attach_during_failed_send ∅ two_clients []
  = (Raise (RuntimeError "Set changed size during iteration"),
     {[ 1%nat; 2%nat; 3%nat ]}, [WsSend 2 "event" ∅]).
Proof. split; by vm_compute. Qed.


(** Claim C9.  The code run on two interleavings.  A websocket that
    attaches, or one that disconnects, while the first send of a
    broadcast is awaited changes the size of the set under iteration:
    the next step of the iteration raises [RuntimeError], the second
    subscriber is never tried and [receive_event] fails. *)
Theorem broadcast_breaks_on_concurrent_mutation :
  receive_event attach_mid_broadcast ∅ two_clients []
  = (Raise (RuntimeError "Set changed size during iteration"),
     {[ 1%nat; 2%nat; 3%nat ]}, [WsSend 2 "event" ∅])
  ∧ receive_event detach_mid_broadcast ∅ two_clients []
  = (Raise (RuntimeError "Set changed size during iteration"),
     {[ 2%nat ]}, [WsSend 2 "event" ∅]).
Proof. split; by vm_compute. Qed.

(** ** The scoring endpoint *)

(** The row read from a payload is the row of the payload completed
    with the defaults. *)
Lemma feature_row_with_defaults (payload : dict) :
  feature_row (with_defaults payload)
  = [ default (PFloat 0) (payload !! "connection_duration");
      default (PFloat 0) (payload !! "packet_size");
      default (PInt 0) (payload !! "port_number") ].
Proof.
  unfold feature_row, with_defaults, get_default. cbn.
  destruct (payload !! "connection_duration") eqn:H1;
    destruct (payload !! "packet_size") eqn:H2;
    destruct (payload !! "port_number") eqn:H3;
    by simplify_map_eq.
Qed.

(** Claim C4, as stated, fails: the empty payload lacks all three
    inputs, yet the row [0.0, 0.0, 0] is handed to the scaler and a
    score and a label are answered. *)
Lemma empty_payload_is_scored :
  missing_feature ∅ ∧
  score toy ∅ []
  = (Return (score_response toy [0%Q; 0%Q; inject_Z 0]),
     [ScalerTransform [PFloat 0; PFloat 0; PInt 0]]).
Proof.
  split; [|by vm_compute].
  exists "connection_duration". split; [left | apply lookup_empty].
Qed.

(** Claim C4, as the code has it.  A payload that lacks inputs is not
    rejected: each absent input is read as its default (0.0 for the
    duration and the size, 0 for the port), the row so completed is
    handed to the scaler, and the answer is the one of the completed
    payload: the score and label of the scaled row, or the exception of
    the scaler itself. *)
Theorem score_coerces_missing_features (art : artifacts) (payload : dict)
    (tr : trace) :
  missing_feature payload →
  score art payload tr = score art (with_defaults payload) tr
  ∧ (score art payload tr).2
    = tr ++ [ScalerTransform (feature_row (with_defaults payload))]
  ∧ (∀ Xs,
       scaler_transform art (feature_row (with_defaults payload)) = Return Xs →
       (score art payload tr).1 = Return (score_response art Xs))
  ∧ (∀ e,
       scaler_transform art (feature_row (with_defaults payload)) = Raise e →
       (score art payload tr).1 = Raise e).
Proof.
  intros _.
  assert (feature_row payload = feature_row (with_defaults payload)) as HX
    by (by rewrite feature_row_with_defaults).
  unfold score, bind, emit, lift, ret. rewrite <- HX.
  repeat split.
  - by destruct (scaler_transform art (feature_row payload)).
  - intros Xs ->. done.
  - intros e ->. done.
Qed.

Lemma score_coerces_missing_features_witness :
  score toy {[ "port_number" := PInt 443 ]} []
  = score toy (with_defaults {[ "port_number" := PInt 443 ]}) []
  ∧ (score toy {[ "port_number" := PInt 443 ]} []).2
    = [] ++ [ScalerTransform
               (feature_row (with_defaults {[ "port_number" := PInt 443 ]}))]
  ∧ (∀ Xs,
       scaler_transform toy
         (feature_row (with_defaults {[ "port_number" := PInt 443 ]}))
       = Return Xs →
       (score toy {[ "port_number" := PInt 443 ]} []).1
       = Return (score_response toy Xs))
  ∧ (∀ e,
       scaler_transform toy
         (feature_row (with_defaults {[ "port_number" := PInt 443 ]}))
       = Raise e →
       (score toy {[ "port_number" := PInt 443 ]} []).1 = Raise e).
Proof.
  apply (score_coerces_missing_features toy {[ "port_number" := PInt 443 ]} []).
  exists "packet_size". split; [right; left | reflexivity].
Defined.

(** ** More on the walk of the process table *)

Lemma record_process_Return (info : proc_info) (m : gmap Z string)
    (tr : trace) :
  record_process (Return info) m tr
  = (Return (match recorded_path info with
             | Some path => <[info_pid info := path]> m
             | None => m
             end), tr).
Proof.
  unfold record_process, recorded_path, bind, lift, ret.
  destruct (or_str _ _) as [path|]; [|done].
  by destruct (_ && _).
Qed.

Lemma process_path_loop_cons_Return (info : proc_info)
    (rest : list (result proc_info)) (m : gmap Z string) (tr : trace) :
  process_path_loop (Return info :: rest) m tr
  = process_path_loop rest
      (match recorded_path info with
       | Some path => <[info_pid info := path]> m
       | None => m
       end) tr.
Proof.
  cbn. unfold bind at 1, try_except. by rewrite record_process_Return.
Qed.

(** The walk gives the same outcome on the table without the processes
    that raised [NoSuchProcess], [AccessDenied] or [ZombieProcess]: such
    an entry changes neither the map nor what follows. *)
Theorem walk_skips_vanished (procs : list (result proc_info))
    (m : gmap Z string) (tr : trace) :
  process_path_loop procs m tr
  = process_path_loop (filter (λ proc, ¬ vanished proc) procs) m tr.
Proof.
  revert m. induction procs as [|proc rest IH]; intros m; [done|].
  rewrite filter_cons. destruct proc as [info|e].
  - cbn [vanished]. rewrite decide_True by (by intros []).
    rewrite !process_path_loop_cons_Return. apply IH.
  - cbn [vanished]. destruct (psutil_gone e) eqn:He.
    + rewrite decide_False by (by intros H; apply H).
      rewrite process_path_loop_skips by done. apply IH.
    + rewrite decide_True by (by intros []).
      by rewrite !process_path_loop_raises.
Qed.

Lemma recorded_path_truthy (info : proc_info) (path : string) :
  recorded_path info = Some path →
  info_pid info ≠ 0 ∧ path ≠ ""
  ∧ or_str (info_exe info) (info_name info) = Some path.
Proof.
  unfold recorded_path. destruct (or_str _ _) as [p|]; [|done].
  destruct (truthy_int _ && truthy_str p) eqn:Ht; [|done].
  intros [= <-]. apply andb_prop in Ht as [Hp Hs]. repeat split.
  - intros H0. cbn in Hp. rewrite H0 in Hp. done.
  - intros ->. done.
Qed.

Lemma process_path_loop_sound (procs : list (result proc_info))
    (m0 : gmap Z string) (tr : trace) (m : gmap Z string) (tr' : trace)
    (p : Z) (path : string) :
  process_path_loop procs m0 tr = (Return m, tr') →
  m !! p = Some path →
  m0 !! p = Some path
  ∨ ∃ info, Return info ∈ procs ∧ info_pid info = p
            ∧ recorded_path info = Some path.
Proof.
  revert m0. induction procs as [|proc rest IH]; intros m0 Hloop Hm.
  { cbn in Hloop. injection Hloop as <- _. by left. }
  destruct proc as [info|e].
  - rewrite process_path_loop_cons_Return in Hloop.
    destruct (IH _ Hloop Hm) as [H0|(info' & Hin & Hp & Hr)].
    + destruct (recorded_path info) as [path'|] eqn:Hrec; [|by left].
      destruct (decide (info_pid info = p)) as [<-|Hne].
      * rewrite lookup_insert_eq in H0. injection H0 as ->.
        right. exists info. split; [left|done].
      * rewrite lookup_insert_ne in H0 by done. by left.
    + right. exists info'. split; [by right | done].
  - destruct (psutil_gone e) eqn:He.
    + rewrite process_path_loop_skips in Hloop by done.
      destruct (IH _ Hloop Hm) as [H0|(info' & Hin & Hp & Hr)]; [by left|].
      right. exists info'. split; [by right | done].
    + by rewrite process_path_loop_raises in Hloop.
Qed.

Lemma process_path_loop_complete (procs : list (result proc_info))
    (m0 : gmap Z string) (tr : trace) (m : gmap Z string) (tr' : trace)
    (p : Z) :
  process_path_loop procs m0 tr = (Return m, tr') →
  is_Some (m0 !! p)
  ∨ (∃ info path, Return info ∈ procs ∧ info_pid info = p
                  ∧ recorded_path info = Some path) →
  is_Some (m !! p).
Proof.
  revert m0. induction procs as [|proc rest IH]; intros m0 Hloop Hp.
  { cbn in Hloop. injection Hloop as <- _.
    destruct Hp as [?|(info & path & Hin & _)]; [done|].
    by apply elem_of_nil in Hin. }
  destruct proc as [info|e].
  - rewrite process_path_loop_cons_Return in Hloop.
    apply (IH _ Hloop).
    destruct Hp as [H0|(info' & path & Hin & Hpid & Hrec)].
    + left. destruct (recorded_path info); [|done].
      destruct (decide (info_pid info = p)) as [<-|Hne].
      * rewrite lookup_insert_eq. eauto.
      * by rewrite lookup_insert_ne.
    + apply elem_of_cons in Hin as [[= <-]|Hin].
      * left. rewrite Hrec, <- Hpid, lookup_insert_eq. eauto.
      * right. eauto.
  - destruct (psutil_gone e) eqn:He.
    + rewrite process_path_loop_skips in Hloop by done.
      apply (IH _ Hloop).
      destruct Hp as [H0|(info' & path & Hin & Hpid & Hrec)]; [by left|].
      apply elem_of_cons in Hin as [[=]|Hin]. right. eauto.
    + by rewrite process_path_loop_raises in Hloop.
Qed.

Lemma process_path_loop_readable (procs : list (result proc_info))
    (m0 : gmap Z string) (tr : trace) :
  Forall (λ proc, readable proc) procs →
  ∃ m, process_path_loop procs m0 tr = (Return m, tr).
Proof.
  revert m0. induction procs as [|proc rest IH]; intros m0 Hall.
  { by exists m0. }
  apply Forall_cons in Hall as [Hp Hrest]. destruct proc as [info|e].
  - rewrite process_path_loop_cons_Return. by apply IH.
  - rewrite process_path_loop_skips by (by apply Is_true_true).
    by apply IH.
Qed.

(** Every entry of the process map has a pid other than 0 and a path
    that is not empty, and comes from a process of the table with that
    pid: the path is its executable or, when that is unknown or empty,
    its name. *)
Theorem process_map_entries (h : host_env) (tr tr' : trace)
    (m : gmap Z string) (p : Z) (path : string) :
  get_process_path_map h tr = (Return m, tr') →
  m !! p = Some path →
  p ≠ 0 ∧ path ≠ ""
  ∧ ∃ procs info,
      process_iter h = Return procs ∧ Return info ∈ procs
      ∧ info_pid info = p
      ∧ or_str (info_exe info) (info_name info) = Some path.
Proof.
  unfold get_process_path_map, bind, lift.
  destruct (process_iter h) as [procs|e]; [|done].
  intros Hloop Hm.
  destruct (process_path_loop_sound _ _ _ _ _ _ _ Hloop Hm)
    as [H0|(info & Hin & Hp & Hrec)].
  { by rewrite lookup_empty in H0. }
  destruct (recorded_path_truthy _ _ Hrec) as (Hnz & Hne & Hor).
  rewrite <- Hp. repeat split; [done..|]. by exists procs, info.
Qed.

Lemma process_map_entries_witness :
  4242 ≠ 0 ∧ "/usr/sbin/nginx" ≠ ""
  ∧ ∃ procs info,
      process_iter cut_off = Return procs ∧ Return info ∈ procs
      ∧ info_pid info = 4242
      ∧ or_str (info_exe info) (info_name info) = Some "/usr/sbin/nginx".
Proof.
  apply (process_map_entries cut_off [] [] Example.pid_map).
  - by vm_compute.
  - reflexivity.
Defined.

(** A process of the table with a pid other than 0 and a known
    executable or name is a key of the process map; when it is the only
    entry of the table with its pid, the map gives its own path. *)
Theorem process_map_complete (h : host_env) (tr tr' : trace)
    (procs : list (result proc_info)) (m : gmap Z string)
    (info : proc_info) (path : string) :
  get_process_path_map h tr = (Return m, tr') →
  process_iter h = Return procs →
  Return info ∈ procs →
  info_pid info ≠ 0 →
  or_str (info_exe info) (info_name info) = Some path →
  path ≠ "" →
  is_Some (m !! info_pid info)
  ∧ ((∀ info', Return info' ∈ procs → info_pid info' = info_pid info →
               info' = info) →
     m !! info_pid info = Some path).
Proof.
  unfold get_process_path_map, bind, lift. intros Hloop Hprocs.
  rewrite Hprocs in Hloop. intros Hin Hnz Hor Hne.
  assert (recorded_path info = Some path) as Hrec.
  { unfold recorded_path. rewrite Hor. cbn.
    destruct (info_pid info =? 0) eqn:E; [by apply Z.eqb_eq in E|].
    by destruct path. }
  assert (is_Some (m !! info_pid info)) as [path' Hm].
  { apply (process_path_loop_complete _ _ _ _ _ _ Hloop). right. eauto. }
  split; [eauto|]. intros Huniq.
  destruct (process_path_loop_sound _ _ _ _ _ _ _ Hloop Hm)
    as [H0|(info' & Hin' & Hp & Hrec')].
  { by rewrite lookup_empty in H0. }
  rewrite (Huniq _ Hin' Hp) in Hrec'. congruence.
Qed.

Lemma process_map_complete_witness :
  is_Some (Example.pid_map !! 4242)
  ∧ ((∀ info', Return info' ∈ process_table →
               info_pid info' = 4242 → info' = nginx_info) →
     Example.pid_map !! 4242 = Some "/usr/sbin/nginx").
Proof.
  apply (process_map_complete cut_off [] [] process_table Example.pid_map
           nginx_info "/usr/sbin/nginx").
  - by vm_compute.
  - reflexivity.
  - right. left.
  - by vm_compute.
  - reflexivity.
  - done.
Defined.

(** An entry of the table that raises anything but the three handled
    exceptions ends the walk: [get_process_path_map] raises that
    exception and gives no partial map, however many processes it had
    read before. *)
Theorem walk_stops_at_unexpected (h : host_env) (tr : trace)
    (before after : list (result proc_info)) (e : exn) :
  process_iter h = Return (before ++ Raise e :: after) →
  Forall (λ proc, readable proc) before →
  psutil_gone e = false →
  get_process_path_map h tr = (Raise e, tr).
Proof.
  unfold get_process_path_map, bind, lift. intros -> Hall He.
  generalize (∅ : gmap Z string).
  induction before as [|proc rest IH]; intros m0; cbn [app].
  { by apply process_path_loop_raises. }
  apply Forall_cons in Hall as [Hp Hrest]. destruct proc as [info|e'].
  - rewrite process_path_loop_cons_Return. by apply IH.
  - rewrite process_path_loop_skips by (by apply Is_true_true).
    by apply IH.
Qed.

Lemma walk_stops_at_unexpected_witness :
  get_process_path_map unreadable []
  = (Raise (OtherException "PermissionError"), []).
Proof.
  apply (walk_stops_at_unexpected unreadable []
           [Return nginx_info; Raise ZombieProcess]
           [Return {| info_pid := 977; info_name := Some "sshd";
                      info_exe := None |}]).
  - reflexivity.
  - repeat constructor.
  - reflexivity.
Defined.

(** ** More on the enumeration and the events *)

Lemma connection_row_retained (pid_map : gmap Z string) (conn : sconn) :
  connection_row pid_map conn
  = if retained conn then Some (row_of pid_map conn) else None.
Proof.
  unfold connection_row, retained.
  destruct (raddr conn) as [a|] eqn:Hr.
  - assert (bool_decide (addr_or_NA (Some a) = "N/A") = false) as ->.
    { apply bool_decide_eq_false. cbn. apply fmt_addr_not_NA. }
    rewrite (bool_decide_eq_true_2 (is_Some (Some a))) by eauto.
    unfold row_of. rewrite Hr. by destruct (status conn).
  - assert (bool_decide (@is_Some addr None) = false) as ->.
    { apply bool_decide_eq_false. by intros [? ?]. }
    unfold row_of. rewrite Hr. by destruct (status conn).
Qed.

(** The enumeration is the connection table restricted to the listening
    connections (with or without a remote end) and to the established
    ones that have a remote end: one row for each, in the order of the
    table, and nothing for any other connection. *)
Theorem enumeration_is_filtered_table (h : host_env)
    (pid_map : gmap Z string) (conns : list sconn) (tr : trace) :
  net_connections h = Return conns →
  list_active_tcp_connections h pid_map tr
  = (Return (row_of pid_map <$> filter (λ conn, retained conn) conns), tr).
Proof.
  intros Hnet. unfold list_active_tcp_connections, bind, lift, ret.
  rewrite Hnet. f_equal. f_equal. clear Hnet.
  induction conns as [|conn rest IH]; [done|].
  cbn [omap list_omap]. rewrite connection_row_retained, filter_cons.
  destruct (retained conn); cbn.
  - rewrite decide_True by done. cbn. f_equal. apply IH.
  - rewrite decide_False by (by intros []). apply IH.
Qed.

Lemma enumeration_is_filtered_table_witness :
  list_active_tcp_connections cut_off Example.pid_map []
  = (Return (row_of Example.pid_map
               <$> filter (λ conn, retained conn) tcp_table), []).
Proof.
  apply (enumeration_is_filtered_table cut_off Example.pid_map tcp_table []).
  reflexivity.
Defined.

(** Every row of the enumeration has exactly the five fields [pid],
    [status], [local_addr], [remote_addr] and [process_path]. *)
Theorem row_fields (pid_map : gmap Z string) (conn : sconn) (row : dict) :
  connection_row pid_map conn = Some row →
  dom row = list_to_set ROW_FIELDS.
Proof.
  rewrite connection_row_retained. destruct (retained conn); [|done].
  intros [= <-]. unfold row_of, ROW_FIELDS.
  rewrite !dom_insert_L, dom_empty_L. cbn. set_solver.
Qed.

Lemma row_fields_witness :
  dom hidden_listener_row = list_to_set ROW_FIELDS.
Proof.
  apply (row_fields Example.pid_map hidden_listener). reflexivity.
Defined.

(** A connection whose owner is a key of the process map carries the
    path that the map gives; its [pid] field is the pid itself unless
    the pid is 0. *)
Theorem row_of_known_owner (pid_map : gmap Z string) (conn : sconn)
    (row : dict) (p : Z) (path : string) :
  connection_row pid_map conn = Some row →
  pid conn = Some p →
  pid_map !! p = Some path →
  row !! "process_path" = Some (PStr path)
  ∧ (p ≠ 0 → row !! "pid" = Some (PInt p)).
Proof.
  intros Hr Hp Hm. destruct (row_lookups _ _ _ Hr) as (Hpid & _ & _ & _ & Hpp).
  rewrite Hpp, Hpid, Hp. cbn. rewrite Hm. split; [done|].
  intros Hnz. by destruct (p =? 0) eqn:E; [apply Z.eqb_eq in E|].
Qed.

Lemma row_of_known_owner_witness :
  row_of Example.pid_map nginx_session !! "process_path"
  = Some (PStr "/usr/sbin/nginx")
  ∧ (4242 ≠ 0 →
     row_of Example.pid_map nginx_session !! "pid" = Some (PInt 4242)).
Proof.
  apply (row_of_known_owner Example.pid_map nginx_session); reflexivity.
Defined.

(** With the process map built in the same cycle, a connection owned by
    pid 0 is never resolved: its row carries the path
    "Unknown/System Process" and the placeholder "N/A" for the pid. *)
Theorem pid_zero_is_unknown (h : host_env) (tr tr' : trace)
    (pid_map : gmap Z string) (conn : sconn) (row : dict) :
  get_process_path_map h tr = (Return pid_map, tr') →
  connection_row pid_map conn = Some row →
  pid conn = Some 0 →
  row !! "process_path" = Some (PStr "Unknown/System Process")
  ∧ row !! "pid" = Some (PStr "N/A").
Proof.
  intros Hmap Hr Hp.
  destruct (row_lookups _ _ _ Hr) as (Hpid & _ & _ & _ & Hpp).
  rewrite Hpp, Hpid, Hp. cbn. split; [|done].
  destruct (pid_map !! 0) as [path|] eqn:Hm; [|done].
  destruct (process_path_loop_sound
              (default [] (match process_iter h with
                           | Return procs => Some procs
                           | Raise _ => None
                           end)) ∅ tr pid_map tr' 0 path)
    as [H0|(info & _ & Hz & Hrec)]; [| done | |].
  - unfold get_process_path_map, bind, lift in Hmap.
    by destruct (process_iter h).
  - by rewrite lookup_empty in H0.
  - by destruct (recorded_path_truthy _ _ Hrec) as [? _].
Qed.

Lemma pid_zero_is_unknown_witness :
  row_of Example.pid_map idle_listener !! "process_path"
  = Some (PStr "Unknown/System Process")
  ∧ row_of Example.pid_map idle_listener !! "pid" = Some (PStr "N/A").
Proof.
  apply (pid_zero_is_unknown cut_off [] [] Example.pid_map idle_listener).
  - by vm_compute.
  - reflexivity.
  - reflexivity.
Defined.

(** Whatever the row, a payload that [event_payload] builds has exactly
    the ten fields of an event: the host and the timestamp given, the
    label "Normal", a null score, the executable path of the row (the
    empty string if the row has none), the process name derived from
    it, and for each other field the value of the row, or null where the
    row has no such key. *)
Theorem event_payload_fields (h : host_env) (hostname ts : string)
    (conn payload : dict) :
  event_payload h hostname ts conn = Return payload →
  dom payload = list_to_set EVENT_FIELDS
  ∧ payload !! "host" = Some (PStr hostname)
  ∧ payload !! "timestamp" = Some (PStr ts)
  ∧ payload !! "label" = Some (PStr "Normal")
  ∧ payload !! "score" = Some PNone
  ∧ payload !! "pid" = Some (default PNone (conn !! "pid"))
  ∧ payload !! "local" = Some (default PNone (conn !! "local_addr"))
  ∧ payload !! "remote" = Some (default PNone (conn !! "remote_addr"))
  ∧ payload !! "status" = Some (default PNone (conn !! "status"))
  ∧ payload !! "exe_path"
    = Some (default (PStr "") (conn !! "process_path"))
  ∧ payload !! "process"
    = Some (PStr (process_name h (default (PStr "") (conn !! "process_path")))).
Proof.
  unfold event_payload, get_default, get.
  destruct (proc_name_of h _) as [name|e] eqn:Hn; [|done].
  intros [= <-]. split.
  { unfold EVENT_FIELDS. rewrite !dom_insert_L, dom_empty_L. cbn. set_solver. }
  assert (name = process_name h (default (PStr "") (conn !! "process_path")))
    as ->.
  { unfold proc_name_of, process_name, truthy in *.
    destruct (default (PStr "") (conn !! "process_path")) as [|n|q|s].
    - by simplify_eq.
    - destruct (negb (n =? 0)); by simplify_eq.
    - destruct (negb (Qeq_bool q 0)); by simplify_eq.
    - destruct (truthy_str s); by simplify_eq. }
  by simplify_map_eq.
Qed.

Lemma event_payload_fields_witness :
  dom (row_payload cut_off "edge-1" "now" ∅) = list_to_set EVENT_FIELDS
  ∧ row_payload cut_off "edge-1" "now" ∅ !! "host" = Some (PStr "edge-1")
  ∧ row_payload cut_off "edge-1" "now" ∅ !! "timestamp" = Some (PStr "now")
  ∧ row_payload cut_off "edge-1" "now" ∅ !! "label" = Some (PStr "Normal")
  ∧ row_payload cut_off "edge-1" "now" ∅ !! "score" = Some PNone
  ∧ row_payload cut_off "edge-1" "now" ∅ !! "pid" = Some PNone
  ∧ row_payload cut_off "edge-1" "now" ∅ !! "local" = Some PNone
  ∧ row_payload cut_off "edge-1" "now" ∅ !! "remote" = Some PNone
  ∧ row_payload cut_off "edge-1" "now" ∅ !! "status" = Some PNone
  ∧ row_payload cut_off "edge-1" "now" ∅ !! "exe_path" = Some (PStr "")
  ∧ row_payload cut_off "edge-1" "now" ∅ !! "process" = Some (PStr "").
Proof.
  exact (event_payload_fields cut_off "edge-1" "now" ∅
           (row_payload cut_off "edge-1" "now" ∅) eq_refl).
Defined.

(** From the connection to the event: the event of a retained
    connection carries its formatted local and remote addresses ("N/A"
    for an absent one), its state, the path found for its owner, and as
    process name the base name of that path. *)
Theorem event_of_connection (h : host_env) (pid_map : gmap Z string)
    (conn : sconn) (row : dict) (hostname ts : string) :
  connection_row pid_map conn = Some row →
  ∃ payload,
    event_payload h hostname ts row = Return payload
    ∧ payload !! "local" = Some (PStr (addr_or_NA (laddr conn)))
    ∧ payload !! "remote" = Some (PStr (addr_or_NA (raddr conn)))
    ∧ payload !! "status" = Some (PStr (status_str (status conn)))
    ∧ payload !! "exe_path"
      = Some (PStr (pid_map_get pid_map (pid conn) UNKNOWN_PROCESS))
    ∧ payload !! "process"
      = Some (PStr (process_name h
           (PStr (pid_map_get pid_map (pid conn) UNKNOWN_PROCESS)))).
Proof.
  intros Hr.
  destruct (event_payload_of_row pid_map h _ _ hostname ts Hr)
    as (payload & Hp & _).
  exists payload. split; [done|].
  unfold event_payload, get_default, get in Hp.
  destruct (row_lookups _ _ _ Hr) as (_ & Hst & Hla & Hra & Hpp).
  rewrite Hpp, Hst, Hla, Hra in Hp. cbn in Hp.
  unfold proc_name_of, truthy, process_name in *.
  destruct (truthy_str (pid_map_get pid_map (pid conn) UNKNOWN_PROCESS));
    injection Hp as <-; by simplify_map_eq.
Qed.

Lemma event_of_connection_witness :
  ∃ payload,
    event_payload cut_off "edge-1" "now"
                  (row_of Example.pid_map nginx_session) = Return payload
    ∧ payload !! "local" = Some (PStr "10.0.0.5:443")
    ∧ payload !! "remote" = Some (PStr "10.0.0.9:51234")
    ∧ payload !! "status" = Some (PStr "ESTABLISHED")
    ∧ payload !! "exe_path" = Some (PStr "/usr/sbin/nginx")
    ∧ payload !! "process" = Some (PStr "nginx").
Proof.
  apply (event_of_connection cut_off Example.pid_map nginx_session).
  reflexivity.
Defined.

(** ** More on the polling loop *)

Lemma rows_of_table (pid_map : gmap Z string) (conns : list sconn) :
  omap (connection_row pid_map) conns
  = row_of pid_map <$> filter (λ conn, retained conn) conns.
Proof.
  induction conns as [|conn rest IH]; [done|].
  cbn [omap list_omap]. rewrite connection_row_retained, filter_cons.
  destruct (retained conn); cbn.
  - rewrite decide_True by done. cbn. f_equal. apply IH.
  - rewrite decide_False by (by intros []). apply IH.
Qed.

(** A cycle whose enumeration succeeds reaches its sleep, and ends as
    the sleep does. *)
Lemma cycle_until_sleep (h : host_env) (tr : trace) (pid_map : gmap Z string)
    (conns : list sconn) (hostname : string) :
  get_process_path_map h tr = (Return pid_map, tr) →
  net_connections h = Return conns →
  gethostname h = Return hostname →
  (∀ payload e,
     requests_post h SERVER_URL payload = Raise e → is_Exception e = true) →
  let rows := omap (connection_row pid_map) conns in
  cycle h tr
  = (time_sleep h,
     tr ++ report_events rows
        ++ post_events h hostname (utcnow_isoformat h +:+ "Z") rows
        ++ [Sleep MONITORING_INTERVAL_SECONDS]).
Proof.
  intros Hmap Hnet Hhost Hexc rows. unfold cycle.
  unfold bind at 1. rewrite Hmap.
  unfold bind at 1. unfold list_active_tcp_connections, bind at 1, lift at 1.
  rewrite Hnet. unfold ret at 1. fold rows.
  unfold bind at 1.
  replace (print_connection_report rows tr)
    with (Return tt, tr ++ report_events rows)
    by (by destruct rows).
  unfold bind at 1, lift at 1. rewrite Hhost.
  unfold bind at 1. unfold rows at 1. rewrite for_each_send by done.
  unfold bind, emit, lift. fold rows.
  by rewrite <- !app_assoc.
Qed.

Lemma healthy_cycle (h : host_env) (tr : trace) :
  healthy h → ∃ tr', cycle h tr = (Return tt, tr').
Proof.
  intros ((procs & Hp & Hall) & (conns & Hnet) & (hostname & Hhost)
          & Hsleep & Hexc).
  destruct (process_path_loop_readable procs ∅ tr Hall) as [pid_map Hloop].
  assert (get_process_path_map h tr = (Return pid_map, tr)) as Hmap.
  { unfold get_process_path_map, bind, lift. by rewrite Hp. }
  eexists. by apply (cycle_completes h tr pid_map conns hostname).
Qed.

(** The loop has no bound of its own: as long as every cycle is healthy
    it goes on, and [report_count] has grown by one for each cycle run.
    ([MAX_REPORTS] is never read.) *)
Theorem loop_runs_while_healthy (hosts : nat → host_env) (fuel k : nat)
    (tr : trace) :
  (∀ i, healthy (hosts i)) →
  (main_loop fuel hosts k tr).1 = (StillRunning, (k + fuel)%nat).
Proof.
  intros Hh. revert k tr. induction fuel as [|fuel IH]; intros k tr; cbn.
  { by rewrite Nat.add_0_r. }
  destruct (healthy_cycle (hosts k) tr (Hh k)) as [tr' ->].
  rewrite IH. f_equal. lia.
Qed.

Lemma loop_runs_while_healthy_witness :
  (main_loop 3 (λ _, cut_off) 0 []).1 = (StillRunning, 3%nat).
Proof.
  apply (loop_runs_while_healthy (λ _, cut_off) 3 0 []).
  intros _.
  split; [exists process_table; split; [reflexivity | repeat constructor]|].
  split; [by exists tcp_table|]. split; [by exists "edge-1"|].
  split; [reflexivity|]. by intros payload e [= <-].
Defined.

Lemma posted_app (tr1 tr2 : trace) :
  posted (tr1 ++ tr2) = posted tr1 ++ posted tr2.
Proof. apply omap_app. Qed.

Lemma posted_post_events (h : host_env) (hostname ts : string)
    (rows : list dict) :
  posted (post_events h hostname ts rows) = row_payload h hostname ts <$> rows.
Proof.
  unfold posted, post_events. induction rows as [|row rows IH]; [done|].
  cbn. f_equal. apply IH.
Qed.

Lemma posted_report_events (rows : list dict) : posted (report_events rows) = [].
Proof. by destruct rows. Qed.

(** In a cycle whose enumeration succeeds, exactly one event is posted
    for each retained connection of the table, in the order of the
    table, whether the posts succeed or fail. *)
Theorem cycle_posts_each_retained (h : host_env) (pid_map : gmap Z string)
    (conns : list sconn) (hostname : string) :
  get_process_path_map h [] = (Return pid_map, []) →
  net_connections h = Return conns →
  gethostname h = Return hostname →
  (∀ payload e,
     requests_post h SERVER_URL payload = Raise e → is_Exception e = true) →
  posted (cycle h []).2
  = (λ conn, row_payload h hostname (utcnow_isoformat h +:+ "Z")
                         (row_of pid_map conn))
      <$> filter (λ conn, retained conn) conns.
Proof.
  intros Hmap Hnet Hhost Hexc.
  rewrite (cycle_until_sleep h [] pid_map conns hostname) by done. cbn [snd].
  rewrite app_nil_l, !posted_app, posted_report_events, posted_post_events.
  cbn. rewrite app_nil_r, rows_of_table.
  by rewrite <- list_fmap_compose.
Qed.

Lemma cycle_posts_each_retained_witness :
  posted (cycle cut_off []).2
  = (λ conn, row_payload cut_off "edge-1"
               (utcnow_isoformat cut_off +:+ "Z")
               (row_of Example.pid_map conn))
      <$> filter (λ conn, retained conn) tcp_table.
Proof.
  apply (cycle_posts_each_retained cut_off Example.pid_map tcp_table "edge-1").
  - by vm_compute.
  - reflexivity.
  - reflexivity.
  - by intros payload e [= <-].
Defined.

(** An interrupt during the sleep stops the loop once the events of the
    cycle have all been posted; the cycle is not counted as a report. *)
Theorem interrupt_during_sleep (hosts : nat → host_env) (fuel n : nat)
    (tr : trace) (pid_map : gmap Z string) (conns : list sconn)
    (hostname : string) :
  get_process_path_map (hosts n) tr = (Return pid_map, tr) →
  net_connections (hosts n) = Return conns →
  gethostname (hosts n) = Return hostname →
  (∀ payload e,
     requests_post (hosts n) SERVER_URL payload = Raise e →
     is_Exception e = true) →
  time_sleep (hosts n) = Raise KeyboardInterrupt →
  let rows := omap (connection_row pid_map) conns in
  main_loop (S fuel) hosts n tr
  = (StoppedByUser, n,
     tr ++ report_events rows
        ++ post_events (hosts n) hostname
             (utcnow_isoformat (hosts n) +:+ "Z") rows
        ++ [Sleep MONITORING_INTERVAL_SECONDS;
            Print (String (Ascii.ascii_of_nat 10)
                          "Monitoring stopped by user.")]).
Proof.
  intros Hmap Hnet Hhost Hexc Hsleep rows. cbn.
  rewrite (cycle_until_sleep _ _ _ _ _ Hmap Hnet Hhost Hexc), Hsleep.
  fold rows. by rewrite <- !app_assoc.
Qed.

Lemma interrupt_during_sleep_witness :
  main_loop 4 (λ _, interrupted_asleep) 0 []
  = (StoppedByUser, 0%nat,
     [] ++ report_events Example.rows
        ++ post_events interrupted_asleep "edge-1"
             (utcnow_isoformat interrupted_asleep +:+ "Z") Example.rows
        ++ [Sleep MONITORING_INTERVAL_SECONDS;
            Print (String (Ascii.ascii_of_nat 10)
                          "Monitoring stopped by user.")]).
Proof.
  apply (interrupt_during_sleep (λ _, interrupted_asleep) 3 0 []
           Example.pid_map tcp_table "edge-1").
  - by vm_compute.
  - reflexivity.
  - reflexivity.
  - by intros payload e [=].
  - reflexivity.
Defined.

Lemma send_event_escapes_witness :
  send_event interrupted hidden_listener_event []
  = (Raise KeyboardInterrupt,
     [] ++ [Post SERVER_URL hidden_listener_event REQUEST_TIMEOUT]).
Proof.
  apply (send_event_escapes interrupted hidden_listener_event []
           KeyboardInterrupt); reflexivity.
Defined.

(** ** More on the registry and the broadcast *)

Lemma sent_to_app (tr1 tr2 : trace) :
  sent_to (tr1 ++ tr2) = sent_to tr1 ++ sent_to tr2.
Proof. apply omap_app. Qed.

Lemma sent_to_send_events (data : dict) (wss : list websocket) :
  sent_to (send_events data wss) = wss.
Proof.
  unfold sent_to, send_events. induction wss as [|ws wss IH]; [done|].
  cbn. f_equal. apply IH.
Qed.

(** The walk over a touched table, whatever the other tasks do and
    whatever the order: it sends to some websockets and either ends
    with the list of those whose send raised, or raises the exception
    of the set iterator. *)
Lemma live_loop_any (h : hub_env) (data : dict)
    (walk : list websocket) (si_used n : nat) (clients : gset websocket)
    (remove_list : list websocket) (tr : trace) :
  ∃ sent clients',
    live_loop h data walk si_used n clients remove_list tr
    = (Return (remove_list
               ++ filter (λ ws, send_raises (send_json h) data ws) sent),
       clients', tr ++ send_events data sent)
    ∨ live_loop h data walk si_used n clients remove_list tr
    = (Raise SET_CHANGED, clients', tr ++ send_events data sent).
Proof.
  revert n clients remove_list tr.
  induction walk as [|ws rest IH]; intros n clients remove_list tr.
  - exists [], clients. cbn.
    destruct (negb _); rewrite !app_nil_r; auto.
  - cbn [live_loop]. destruct (negb (size clients =? si_used)%nat).
    { exists [], clients. right. cbn. by rewrite app_nil_r. }
    destruct (decide (ws ∈ clients)) as [Hin|Hout]; [|apply IH].
    assert (send_raises (send_json h) data ws
            = match send_json h ws data with Raise _ => true | _ => false end)
      as Hraises by done.
    destruct (send_json h ws data) as [[]|e].
    + destruct (IH (S n) (foldl apply_mutation clients (other_tasks h n))
                  remove_list (tr ++ [WsSend ws "event" data]))
        as (sent & c' & Hr).
      exists (ws :: sent), c'.
      rewrite filter_cons. case_decide as Hd; rewrite Hraises in Hd; [done|].
      unfold send_events in *. cbn [fmap list_fmap].
      rewrite <- !app_assoc in Hr. exact Hr.
    + destruct (IH (S n) (foldl apply_mutation clients (other_tasks h n))
                  (remove_list ++ [ws]) (tr ++ [WsSend ws "event" data]))
        as (sent & c' & Hr).
      exists (ws :: sent), c'.
      rewrite filter_cons. case_decide as Hd; rewrite Hraises in Hd; [|done].
      unfold send_events in *. cbn [fmap list_fmap].
      rewrite <- !app_assoc in Hr. exact Hr.
Qed.

(** The same for the whole first loop of the broadcast. *)
Lemma broadcast_loop_any (h : hub_env) (data : dict)
    (pending : list websocket) (si_used n : nat) (clients : gset websocket)
    (remove_list : list websocket) (tr : trace) :
  ∃ sent clients',
    broadcast_loop h data pending si_used n clients remove_list tr
    = (Return (remove_list
               ++ filter (λ ws, send_raises (send_json h) data ws) sent),
       clients', tr ++ send_events data sent)
    ∨ broadcast_loop h data pending si_used n clients remove_list tr
    = (Raise SET_CHANGED, clients', tr ++ send_events data sent).
Proof.
  revert n remove_list tr.
  induction pending as [|ws rest IH]; intros n remove_list tr.
  - exists [], clients. cbn.
    destruct (negb _); rewrite !app_nil_r; auto.
  - cbn [broadcast_loop]. destruct (negb (size clients =? si_used)%nat).
    { exists [], clients. right. cbn. by rewrite app_nil_r. }
    assert (send_raises (send_json h) data ws
            = match send_json h ws data with Raise _ => true | _ => false end)
      as Hraises by done.
    assert (∃ sent c',
      (match other_tasks h n with
       | [] => broadcast_loop h data rest si_used (S n) clients
       | m :: ms => live_loop h data (live_walk h) si_used (S n)
                      (foldl apply_mutation clients (m :: ms))
       end)
        (match send_json h ws data with
         | Return _ => remove_list
         | Raise _ => remove_list ++ [ws]
         end) (tr ++ [WsSend ws "event" data])
      = (Return ((match send_json h ws data with
                  | Return _ => remove_list
                  | Raise _ => remove_list ++ [ws]
                  end)
                 ++ filter (λ ws, send_raises (send_json h) data ws) sent),
         c', (tr ++ [WsSend ws "event" data]) ++ send_events data sent)
      ∨ (match other_tasks h n with
         | [] => broadcast_loop h data rest si_used (S n) clients
         | m :: ms => live_loop h data (live_walk h) si_used (S n)
                        (foldl apply_mutation clients (m :: ms))
         end)
          (match send_json h ws data with
           | Return _ => remove_list
           | Raise _ => remove_list ++ [ws]
           end) (tr ++ [WsSend ws "event" data])
      = (Raise SET_CHANGED, c',
         (tr ++ [WsSend ws "event" data]) ++ send_events data sent))
      as (sent & c' & Hr).
    { destruct (other_tasks h n); [apply IH | apply live_loop_any]. }
    exists (ws :: sent), c'.
    assert ((match other_tasks h n with
             | [] => broadcast_loop h data rest si_used (S n) clients
                       (match send_json h ws data with
                        | Return _ => remove_list
                        | Raise _ => remove_list ++ [ws]
                        end) (tr ++ [WsSend ws "event" data])
             | m :: ms => live_loop h data (live_walk h) si_used (S n)
                            (foldl apply_mutation clients (m :: ms))
                            (match send_json h ws data with
                             | Return _ => remove_list
                             | Raise _ => remove_list ++ [ws]
                             end) (tr ++ [WsSend ws "event" data])
             end)
            = (match other_tasks h n with
               | [] => broadcast_loop h data rest si_used (S n) clients
               | m :: ms => live_loop h data (live_walk h) si_used (S n)
                              (foldl apply_mutation clients (m :: ms))
               end)
                (match send_json h ws data with
                 | Return _ => remove_list
                 | Raise _ => remove_list ++ [ws]
                 end) (tr ++ [WsSend ws "event" data])) as ->
      by (by destruct (other_tasks h n)).
    rewrite filter_cons. unfold send_events in *. cbn [fmap list_fmap].
    rewrite <- !app_assoc in Hr.
    case_decide as Hd; rewrite Hraises in Hd;
      destruct (send_json h ws data) as [[]|e]; try done;
      rewrite <- ?app_assoc in Hr; exact Hr.
Qed.

(** Whatever the other tasks do to the registry during a broadcast and
    whatever the sends do, no exception of a send leaves
    [receive_event]: it answers [{"status": "ok"}] or raises the
    exception of the set iterator, and all it has written by then is
    deliveries of the payload as it was received. *)
Theorem send_failures_never_escape (h : hub_env) (payload : dict)
    (clients : gset websocket) (tr : trace) :
  ∃ sent,
    (receive_event h payload clients tr).2 = tr ++ send_events payload sent
    ∧ ((receive_event h payload clients tr).1.1 = Return STATUS_OK
       ∨ (receive_event h payload clients tr).1.1 = Raise SET_CHANGED).
Proof.
  unfold receive_event, broadcast_event.
  destruct (broadcast_loop_any h payload (elements clients) (size clients) 0
              clients [] tr) as (sent & c' & [-> | ->]);
    exists sent; (split; [done|]); auto.
Qed.

(** A broadcast that completes leaves in the registry no websocket
    whose send raised, whatever the other tasks did to the registry
    meanwhile. *)
Theorem completed_broadcast_drops_failed (h : hub_env) (data : dict)
    (clients clients' : gset websocket) (tr tr' : trace) (ws : websocket) :
  broadcast_event h data clients tr = (Return tt, clients', tr') →
  ws ∈ sent_to (drop (length tr) tr') →
  send_raises (send_json h) data ws = true →
  ws ∉ clients'.
Proof.
  unfold broadcast_event.
  destruct (broadcast_loop_any h data (elements clients) (size clients) 0
              clients [] tr) as (sent & c' & [-> | ->]); [|done].
  intros [= <- <-]. rewrite drop_app_length, sent_to_send_events.
  intros Hws Hraise. rewrite (elem_of_discard_all (send_json h) data).
  intros [_ Hn]. apply Hn.
  cbn. apply list_elem_of_filter. split; [by rewrite Hraise|done].
Qed.

Lemma completed_broadcast_drops_failed_witness :
  2%nat ∉ ({[ 3%nat ]} : gset websocket).
Proof.
  apply (completed_broadcast_drops_failed swap_mid_broadcast ∅ two_clients
           {[ 3%nat ]} [] [WsSend 2 "event" ∅; WsSend 3 "event" ∅] 2%nat).
  - by vm_compute.
  - vm_compute. apply list_elem_of_here.
  - reflexivity.
Defined.

(** Two ingests in a row: the second is acknowledged and reaches
    exactly the websockets that the first left in the registry, that is
    the registered ones whose first send did not raise; their number and
    the number of those dropped add up to the size of the registry. *)
Theorem next_ingest_reaches_survivors
    (send1 send2 : websocket → dict → result unit) (p1 p2 : dict)
    (clients : gset websocket) :
  let after1 := (receive_event (quiet send1) p1 clients []).1.2 in
  let second := receive_event (quiet send2) p2 after1 [] in
  second.1.1 = Return STATUS_OK
  ∧ sent_to second.2 = elements after1
  ∧ (∀ ws, ws ∈ sent_to second.2 ↔
           ws ∈ clients ∧ send_raises send1 p1 ws = false)
  ∧ (length (sent_to second.2)
     + size (filter (λ ws, send_raises send1 p1 ws) clients)
     = size clients)%nat.
Proof.
  intros after1 second. unfold second, after1.
  unfold receive_event. rewrite !broadcast_event_quiet. cbn.
  rewrite sent_to_send_events.
  split; [done|]. split; [done|]. split.
  - intros ws. rewrite elem_of_elements, elem_of_filter.
    destruct (send_raises send1 p1 ws); cbn; intuition congruence.
  - change (length (elements ?X)) with (size X).
    rewrite <- size_union.
    + f_equal. apply set_eq. intros ws.
      rewrite elem_of_union, !elem_of_filter.
      destruct (send_raises send1 p1 ws); cbn; tauto.
    + intros ws. rewrite !elem_of_filter. tauto.
Qed.

(** Alone on the registry, a broadcast never adds a websocket to it,
    and leaves it as it was when no send raises. *)
Theorem broadcast_shrinks_registry
    (send : websocket → dict → result unit) (data : dict)
    (clients : gset websocket) (tr : trace) :
  (broadcast_event (quiet send) data clients tr).1.2 ⊆ clients
  ∧ ((∀ ws, ws ∈ clients → send ws data = Return tt) →
     (broadcast_event (quiet send) data clients tr).1.2 = clients).
Proof.
  rewrite broadcast_event_quiet. cbn. split.
  - intros ws. rewrite elem_of_filter. tauto.
  - intros Hok. apply set_eq. intros ws. rewrite elem_of_filter.
    split; [tauto|]. intros Hin. split; [|done].
    unfold send_raises. rewrite (Hok ws Hin). by intros [].
Qed.

Lemma broadcast_shrinks_registry_witness :
  (broadcast_event (quiet all_delivered) ∅ two_clients []).1.2 ⊆ two_clients
  ∧ (broadcast_event (quiet all_delivered) ∅ two_clients []).1.2
    = two_clients.
Proof.
  destruct (broadcast_shrinks_registry all_delivered ∅ two_clients [])
    as [Hsub Hsame].
  split; [exact Hsub|]. apply Hsame. reflexivity.
Defined.

(** Whatever the other tasks do during the first send of a broadcast,
    if it changes the size of the registry the broadcast breaks: the
    iterator raises, no second websocket is tried, and [receive_event]
    fails after that single send. *)
Theorem size_change_breaks_broadcast (h : hub_env) (payload : dict)
    (clients : gset websocket) (tr : trace) :
  clients ≠ ∅ →
  size (foldl apply_mutation clients (other_tasks h 0)) ≠ size clients →
  ∃ ws,
    ws ∈ clients
    ∧ receive_event h payload clients tr
      = (Raise SET_CHANGED, foldl apply_mutation clients (other_tasks h 0),
         tr ++ [WsSend ws "event" payload]).
Proof.
  intros Hne Hsize. unfold receive_event, broadcast_event.
  destruct (elements clients) as [|ws rest] eqn:Hel.
  { by apply elements_empty_inv, leibniz_equiv in Hel. }
  assert (ws ∈ clients) as Hin.
  { apply elem_of_elements. rewrite Hel. left. }
  exists ws. split; [done|]. cbn [broadcast_loop].
  rewrite Nat.eqb_refl. cbn [negb].
  destruct (other_tasks h 0) as [|m ms] eqn:Hot.
  { by cbn in Hsize. }
  assert (∀ rl,
    live_loop h payload (live_walk h) (size clients) 1
      (foldl apply_mutation clients (m :: ms)) rl
      (tr ++ [WsSend ws "event" payload])
    = (Raise SET_CHANGED, foldl apply_mutation clients (m :: ms),
       tr ++ [WsSend ws "event" payload])) as Hnext.
  { intros rl. apply Nat.eqb_neq in Hsize.
    destruct (live_walk h); cbn [live_loop]; by rewrite Hsize. }
  by rewrite Hnext.
Qed.

Lemma size_change_breaks_broadcast_witness :
  ∃ ws,
    ws ∈ two_clients
    ∧ receive_event detach_mid_broadcast ∅ two_clients []
      = (Raise SET_CHANGED,
         foldl apply_mutation two_clients
               (other_tasks detach_mid_broadcast 0),
         [] ++ [WsSend ws "event" ∅]).
Proof.
  apply (size_change_breaks_broadcast detach_mid_broadcast ∅ two_clients []).
  - intros H. by vm_compute in H.
  - by vm_compute.
Defined.

(** A websocket that attaches and then disconnects is removed without
    error, and the registry is back to what it was before the attach. *)
Theorem attach_then_disconnect (ws : websocket) (clients : gset websocket) :
  websocket_closed ws WebSocketDisconnect (websocket_attach ws clients)
  = (Return tt, clients ∖ {[ws]})
  ∧ (ws ∉ clients →
     (websocket_closed ws WebSocketDisconnect
        (websocket_attach ws clients)).2 = clients).
Proof.
  unfold websocket_attach, set_add.
  rewrite websocket_closed_present by (apply elem_of_union_l, elem_of_singleton; done).
  assert (({[ws]} ∪ clients) ∖ {[ws]} = clients ∖ {[ws]}) as Heq.
  { apply set_eq. intros x.
    rewrite !elem_of_difference, elem_of_union, elem_of_singleton. tauto. }
  rewrite Heq. split; [done|]. intros Hout. cbn.
  apply set_eq. intros x. rewrite elem_of_difference, elem_of_singleton.
  split; [tauto|]. intros Hx. split; [done|]. by intros ->.
Qed.

Lemma attach_then_disconnect_witness :
  websocket_closed 7 WebSocketDisconnect (websocket_attach 7 two_clients)
  = (Return tt, two_clients ∖ {[7%nat]})
  ∧ (websocket_closed 7 WebSocketDisconnect
       (websocket_attach 7 two_clients)).2 = two_clients.
Proof.
  destruct (attach_then_disconnect 7 two_clients) as [Hclosed Hback].
  split; [exact Hclosed|]. apply Hback.
  intros H. by vm_compute in H.
Defined.

(** When the endpoint of a websocket is left by anything but a
    disconnect, the exception goes on and the websocket stays in the
    registry: the next ingest still sends to it. *)
Theorem stale_websocket_stays (ws : websocket) (e : exn)
    (clients : gset websocket)
    (send : websocket → dict → result unit) (payload : dict) :
  e ≠ WebSocketDisconnect →
  let after := websocket_closed ws e (websocket_attach ws clients) in
  after.1 = Raise e
  ∧ ws ∈ after.2
  ∧ ws ∈ sent_to (receive_event (quiet send) payload after.2 []).2.
Proof.
  intros He after.
  assert (after = (Raise e, {[ws]} ∪ clients)) as ->.
  { unfold after, websocket_closed, websocket_attach, set_add.
    by destruct e. }
  cbn [fst snd].
  assert (ws ∈ ({[ws]} ∪ clients : gset websocket)) as Hin
    by (apply elem_of_union_l, elem_of_singleton; done).
  split; [done|]. split; [done|].
  unfold receive_event. rewrite broadcast_event_quiet. cbn.
  rewrite sent_to_send_events. by apply elem_of_elements.
Qed.

Lemma stale_websocket_stays_witness :
  let after :=
    websocket_closed 7 (RuntimeError "closed") (websocket_attach 7 two_clients)
  in
  after.1 = Raise (RuntimeError "closed")
  ∧ 7%nat ∈ after.2
  ∧ 7%nat ∈ sent_to (receive_event (quiet all_delivered) ∅ after.2 []).2.
Proof.
  apply (stale_websocket_stays 7 (RuntimeError "closed") two_clients
           all_delivered ∅).
  discriminate.
Defined.

(** ** More on the scoring endpoint *)

(** An answer of [score] has exactly the fields [score] and [label];
    the score is the decision function of the scaled row, and the label
    is "Anomaly" when the forest predicts -1 and "Normal" for any other
    prediction. *)
Theorem score_label (art : artifacts) (payload resp : dict) (tr tr' : trace) :
  score art payload tr = (Return resp, tr') →
  dom resp = {[ "score"; "label" ]}
  ∧ ∃ Xs,
      scaler_transform art (feature_row payload) = Return Xs
      ∧ resp !! "score" = Some (PFloat (model_decision_function art Xs))
      ∧ (model_predict art Xs = -1 → resp !! "label" = Some (PStr "Anomaly"))
      ∧ (model_predict art Xs ≠ -1 → resp !! "label" = Some (PStr "Normal")).
Proof.
  unfold score, bind, emit, lift, ret.
  destruct (scaler_transform art (feature_row payload)) as [Xs|e]; [|done].
  intros [= <- _]. split.
  { rewrite !dom_insert_L, dom_empty_L. apply set_eq. intros k.
    rewrite !elem_of_union, !elem_of_singleton, elem_of_empty. tauto. }
  exists Xs. split; [done|]. split; [by simplify_map_eq|].
  split; intros Hp.
  - rewrite Hp. by simplify_map_eq.
  - apply Z.eqb_neq in Hp. rewrite Hp. by simplify_map_eq.
Qed.

Lemma score_label_witness :
  dom (score_response toy [0%Q; 0%Q; inject_Z 0]) = {[ "score"; "label" ]}
  ∧ ∃ Xs,
      scaler_transform toy (feature_row ∅) = Return Xs
      ∧ score_response toy [0%Q; 0%Q; inject_Z 0] !! "score"
        = Some (PFloat (model_decision_function toy Xs))
      ∧ (model_predict toy Xs = -1 →
         score_response toy [0%Q; 0%Q; inject_Z 0] !! "label"
         = Some (PStr "Anomaly"))
      ∧ (model_predict toy Xs ≠ -1 →
         score_response toy [0%Q; 0%Q; inject_Z 0] !! "label"
         = Some (PStr "Normal")).
Proof.
  apply (score_label toy ∅ (score_response toy [0%Q; 0%Q; inject_Z 0])
           [] [ScalerTransform [PFloat 0; PFloat 0; PInt 0]]).
  by vm_compute.
Defined.

(** [score] reads the three feature keys and nothing else: two payloads
    that agree on them get the same answer, whatever other keys either
    of them has. *)
Theorem score_reads_three_keys (art : artifacts) (p1 p2 : dict) (tr : trace) :
  (∀ key, key ∈ FEATURE_DEFAULTS.*1 → p1 !! key = p2 !! key) →
  score art p1 tr = score art p2 tr.
Proof.
  intros Hsame.
  assert (feature_row p1 = feature_row p2) as HX.
  { unfold feature_row, get_default.
    rewrite (Hsame "connection_duration"), (Hsame "packet_size"),
      (Hsame "port_number"); [done|..]; cbn.
    - right. right. left.
    - right. left.
    - left. }
  unfold score. by rewrite HX.
Qed.

Lemma score_reads_three_keys_witness :
  score toy {[ "port_number" := PInt 443 ]} []
  = score toy (<["host" := PStr "edge-1"]> {[ "port_number" := PInt 443 ]}) [].
Proof.
  apply (score_reads_three_keys toy).
  intros key Hkey. cbn in Hkey.
  apply elem_of_cons in Hkey as [->|Hkey]; [reflexivity|].
  apply elem_of_cons in Hkey as [->|Hkey]; [reflexivity|].
  apply elem_of_cons in Hkey as [->|Hkey]; [reflexivity|].
  by apply elem_of_nil in Hkey.
Defined.

(** ** The offline detection script *)

Lemma labels_of_results (xs : list (sample * Q)) (preds : list Z) :
  length preds = length xs →
  label <$> zip_with (λ xs l, {| features := xs.1; anomaly_score := xs.2;
                                 label := l |}) xs (is_anomaly preds)
  = is_anomaly preds.
Proof.
  revert preds. induction xs as [|x xs IH]; intros [|p preds] Hlen;
    try done. cbn. f_equal. apply IH. by injection Hlen.
Qed.

Lemma value_count_labels (name : string) (rs : list result_row) :
  value_count name rs = length (filter (λ l, l = name) (label <$> rs)).
Proof.
  unfold value_count. induction rs as [|r rs IH]; [done|].
  rewrite fmap_cons, !filter_cons. case_decide; cbn [length]; by rewrite IH.
Qed.

Lemma count_labels (preds : list Z) :
  length (filter (λ l, l = "Anomaly") (is_anomaly preds))
  = length (filter (λ p, p = -1) preds)
  ∧ (length (filter (λ l, l = "Anomaly") (is_anomaly preds))
     + length (filter (λ l, l = "Normal") (is_anomaly preds))
     = length preds)%nat.
Proof.
  induction preds as [|p preds [IH1 IH2]]; [done|].
  unfold is_anomaly in *. rewrite fmap_cons, !filter_cons.
  destruct (p =? -1) eqn:E.
  - apply Z.eqb_eq in E as ->.
    rewrite (decide_True (P := "Anomaly" = "Anomaly")) by done.
    rewrite (decide_True (P := -1 = -1)) by done.
    rewrite (decide_False (P := "Anomaly" = "Normal")) by done.
    cbn [length]. split; [by rewrite IH1 | by rewrite <- IH2].
  - apply Z.eqb_neq in E.
    rewrite (decide_False (P := "Normal" = "Anomaly")) by done.
    rewrite (decide_False (P := p = -1)) by done.
    rewrite (decide_True (P := "Normal" = "Normal")) by done.
    cbn [length]. split; [done | lia].
Qed.

(** For the frame that [train_and_detect_anomalies] returns,
    [display_results] prints as total the number of samples, as
    anomalies the number of predictions equal to -1, and the anomalies
    and the normal traffic add up to the total. *)
Theorem displayed_counts (fit : list sample → fitted) (df : list sample)
    (results_df : list result_row) :
  train_and_detect_anomalies fit df = Return results_df →
  ∃ anomaly_count normal_count,
    display_results results_df = (length df, anomaly_count, normal_count)
    ∧ anomaly_count = length (filter (λ p, p = -1) (predictions (fit df)))
    ∧ (anomaly_count + normal_count = length df)%nat.
Proof.
  unfold train_and_detect_anomalies. case_bool_decide as Hlen; [|done].
  destruct Hlen as [Hs Hp]. intros [= <-].
  unfold display_results. rewrite !value_count_labels.
  rewrite labels_of_results by (by rewrite length_zip, Hs, Nat.min_id).
  destruct (count_labels (predictions (fit df))) as [H1 H2].
  eexists _, _. split; [|split; [exact H1 | by rewrite H2]].
  f_equal. f_equal.
  rewrite <- (length_fmap label), labels_of_results
    by (by rewrite length_zip, Hs, Nat.min_id).
  unfold is_anomaly. by rewrite length_fmap.
Qed.

Lemma displayed_counts_witness :
  ∃ anomaly_count normal_count,
    display_results
      (zip_with (λ xs l, {| features := xs.1; anomaly_score := xs.2;
                            label := l |})
         (zip corpus (anomaly_scores (toy_fit corpus)))
         (is_anomaly (predictions (toy_fit corpus))))
    = (length corpus, anomaly_count, normal_count)
    ∧ anomaly_count
      = length (filter (λ p, p = -1) (predictions (toy_fit corpus)))
    ∧ (anomaly_count + normal_count = length corpus)%nat.
Proof.
  apply (displayed_counts toy_fit corpus). reflexivity.
Defined.
